(** * cline-issue-reporter: the metadata locator and the request handler

    A shallow embedding of [src/index.ts].  JavaScript strings are modelled
    as [string]; a number with an integer value as that integer, with the
    rounding of [parseInt] to a double and the digits of [toString] written
    out; what [JSON.parse] returns as a value of [JsValue], of which the
    code reads properties without checking any type; the host (operating
    system, file system, child processes, [path.join], [JSON.parse]) is an
    explicit record that every operation receives; thrown errors, the
    [TypeError]s of the language included, are values of a sum type; the
    child processes a request spawns are recorded in a trace. *)

From Stdlib Require Import String Ascii List ZArith Bool Lia.
From Stdlib Require Import DecimalString.
From Stdlib Require DecimalZ DecimalFacts Permutation.
Import ListNotations.

Local Open Scope string_scope.
Local Open Scope Z_scope.

(** ** Strings *)

Module Str.

(** [s.startsWith(p)] *)
Fixpoint startsWith (p s : string) : bool :=
  match p, s with
  | EmptyString, _ => true
  | String a p', String b s' => Ascii.eqb a b && startsWith p' s'
  | String _ _, EmptyString => false
  end.

(** [s.includes(p)] *)
Fixpoint includes (p s : string) : bool :=
  startsWith p s ||
  match s with
  | EmptyString => false
  | String _ s' => includes p s'
  end.

(** [s.slice(n)] *)
Fixpoint drop (n : nat) (s : string) : string :=
  match n, s with
  | O, _ => s
  | S n', String _ s' => drop n' s'
  | S _, EmptyString => EmptyString
  end.

(** The longest prefix of [s] whose characters satisfy [f]. *)
Fixpoint takeWhile (f : ascii -> bool) (s : string) : string :=
  match s with
  | EmptyString => EmptyString
  | String c s' => if f c then String c (takeWhile f s') else EmptyString
  end.

Fixpoint forallb (f : ascii -> bool) (s : string) : bool :=
  match s with
  | EmptyString => true
  | String c s' => f c && forallb f s'
  end.

(** [xs.join(sep)] *)
Fixpoint join (sep : string) (xs : list string) : string :=
  match xs with
  | [] => ""
  | [x] => x
  | x :: rest => x ++ sep ++ join sep rest
  end.

(** [s.replace(/c/g, by)] for a one-character pattern [c] and a
    replacement text [by] without [$]. *)
Fixpoint replaceAll (c : ascii) (by_ : string) (s : string) : string :=
  match s with
  | EmptyString => EmptyString
  | String a s' =>
      if Ascii.eqb a c then by_ ++ replaceAll c by_ s'
      else String a (replaceAll c by_ s')
  end.

(** The character class [\d]. *)
Definition isDigit (c : ascii) : bool :=
  let n := nat_of_ascii c in (48 <=? n)%nat && (n <=? 57)%nat.

Definition snoc (s : string) (c : ascii) : string := s ++ String c "".

End Str.

(** ** Thrown errors *)

Inductive result (A : Type) : Type :=
| Ok (a : A)
| Err (message : string).
Arguments Ok {A} a.
Arguments Err {A} message.


(** ** [escapeShellArg] *)

Definition quote : ascii := "'"%char.
Definition dquote : ascii := ascii_of_nat 34.
Definition newline : ascii := ascii_of_nat 10.
Definition tab : ascii := ascii_of_nat 9.

(** [`'${arg.replace(/'/g, "'\\''")}'`] *)
Definition escapeShellArg (arg : string) : string :=
  "'" ++ Str.replaceAll quote "'\''" arg ++ "'".

(** ** The shell that reads the command

    On a platform other than win32 [exec] hands the command text to
    [/bin/sh -c]; on win32 it hands it to [cmd.exe], whose quoting is
    another one and is not modelled.  [Sh.words] is the quoting part of
    the POSIX shell command language (sections 2.2.1 to 2.2.3 and field
    splitting of a simple command): it yields the list of argument words
    of a command text that is one simple command made of literal words,
    and [None] for any text that holds an unquoted operator, expansion,
    pattern or comment character, or an unterminated quotation.  A text
    with a NUL character never reaches a shell: [exec] refuses it. *)

Module Sh.

Inductive mode := Unquoted | Single | Double.

Definition isBlank (c : ascii) : bool :=
  Ascii.eqb c " "%char || Ascii.eqb c tab.

(** Characters that are not literal when they stand unquoted: control
    operators, redirections, newline, and the characters that start an
    expansion, a pattern or a comment. *)
Definition isSpecial (c : ascii) : bool :=
  existsb (Ascii.eqb c)
    [ "|"; "&"; ";"; "<"; ">"; "("; ")"; "$"; "`"; newline; "*"; "?"; "[";
      "#"; "~"; "="; "%"; "!"; "{"; "}" ]%char.

(** Characters a backslash escapes inside double quotes. *)
Definition isDqEscapable (c : ascii) : bool :=
  existsb (Ascii.eqb c) [ "$"; "`"; dquote; "\"; newline ]%char.

Definition push (cur : option string) (c : ascii) : option string :=
  match cur with
  | None => Some (String c "")
  | Some w => Some (Str.snoc w c)
  end.

Definition start (cur : option string) : option string :=
  match cur with
  | None => Some ""
  | Some w => Some w
  end.

Definition flush (cur : option string) (rest : option (list string))
  : option (list string) :=
  match cur, rest with
  | _, None => None
  | None, Some ws => Some ws
  | Some w, Some ws => Some (w :: ws)
  end.

(** [lex m cur s]: the words of [s], read in mode [m] with the word in
    progress [cur] ([None] between words). *)
Fixpoint lex (m : mode) (cur : option string) (s : string)
  : option (list string) :=
  match s with
  | EmptyString =>
      match m with
      | Unquoted => flush cur (Some [])
      | Single | Double => None
      end
  | String c s' =>
      match m with
      | Single =>
          if Ascii.eqb c quote then lex Unquoted cur s'
          else lex Single (push cur c) s'
      | Double =>
          if Ascii.eqb c dquote then lex Unquoted cur s'
          else if Ascii.eqb c "\"%char then
            match s' with
            | EmptyString => None
            | String d s'' =>
                if Ascii.eqb d newline then lex Double cur s''
                else if isDqEscapable d then lex Double (push cur d) s''
                else lex Double (push (push cur c) d) s''
            end
          else if Ascii.eqb c "$"%char || Ascii.eqb c "`"%char then None
          else lex Double (push cur c) s'
      | Unquoted =>
          if Ascii.eqb c quote then lex Single (start cur) s'
          else if Ascii.eqb c dquote then lex Double (start cur) s'
          else if Ascii.eqb c "\"%char then
            match s' with
            | EmptyString => None
            | String d s'' =>
                if Ascii.eqb d newline then lex Unquoted cur s''
                else lex Unquoted (push cur d) s''
            end
          else if isBlank c then flush cur (lex Unquoted None s')
          else if isSpecial c then None
          else lex Unquoted (push cur c) s'
      end
  end.

Definition words (command : string) : option (list string) :=
  lex Unquoted None command.

End Sh.

(** ** Numbers

    A number of the program is modelled by the integer it denotes.  The
    numbers that occur are -1 and what [parseInt] reads from digits: a
    double with an integer value, or [Infinity], which is modelled by
    [2 ^ 1024], the first power of two beyond the finite doubles, so that
    [>] and [Math.max] are the order of the integers. *)

Definition digitValue (c : ascii) : Z := Z.of_nat (nat_of_ascii c) - 48.

(** The integer that a text of digits denotes. *)
Definition digitsValue (s : string) : Z :=
  fold_left (fun acc c => 10 * acc + digitValue c) (list_ascii_of_string s) 0.

(** [2 ^ 53]: below it every integer is a double. *)
Definition safeLimit : Z := 9007199254740992.

Definition Infinity : Z := 2 ^ 1024.

(** The double nearest to an integer that is not negative: 53 significant
    bits, a tie goes to the even significand, and what would reach
    [2 ^ 1024] is [Infinity]. *)
Definition roundDouble (z : Z) : Z :=
  if z <? safeLimit then z
  else
    let e := Z.log2 z - 52 in
    let q := z / 2 ^ e in
    let r := z mod 2 ^ e in
    let half := 2 ^ (e - 1) in
    let q' := if (half <? r) || ((r =? half) && Z.odd q) then q + 1 else q in
    Z.min (q' * 2 ^ e) Infinity.

(** [parseInt(s, 10)] on a text that passed [/^\d+$/]. *)
Definition parseInt10 (s : string) : Z := roundDouble (digitsValue s).

(** All the decimal digits of an integer. *)
Definition decimal (z : Z) : string := NilZero.string_of_int (Z.to_int z).

Definition digitCount (z : Z) : Z := Z.of_nat (String.length (decimal z)).

(** The [k]-digit decimal nearest to the double [v] of [n] digits, when it
    reads back as [v]: its digits and the number of digits of its value. *)
Definition shortestWith (v n k : Z) : option (Z * Z) :=
  let p := 10 ^ (n - k) in
  let lo := v / p in
  let hi := lo + 1 in
  let pick := fun s =>
    if s =? 10 ^ k then Some (10 ^ (k - 1), n + 1) else Some (s, n) in
  match roundDouble (lo * p) =? v, roundDouble (hi * p) =? v with
  | true, true =>
      let below := v - lo * p in
      let above := hi * p - v in
      if below <? above then pick lo
      else if above <? below then pick hi
      else if Z.even lo then pick lo else pick hi
  | true, false => pick lo
  | false, true => pick hi
  | false, false => None
  end.

(** The least number of digits that reads back as [v], with the digits. *)
Fixpoint shortest (v n : Z) (ks : list Z) : Z * Z * Z :=
  match ks with
  | [] => (v, n, n)
  | k :: rest =>
      if n <? k then (v, n, n)
      else match shortestWith v n k with
           | Some (s, n') => (s, n', k)
           | None => shortest v n rest
           end
  end.

Fixpoint zeros (n : nat) : string :=
  match n with
  | O => ""
  | S n' => String "0" (zeros n')
  end.

(** [Number::toString] on a finite double from [2 ^ 53] on: the shortest
    digits that read back as the number, padded with zeros up to 21
    digits and in exponent form beyond. *)
Definition largeForm (v : Z) : string :=
  match shortest v (digitCount v)
          [1; 2; 3; 4; 5; 6; 7; 8; 9; 10; 11; 12; 13; 14; 15; 16; 17] with
  | (s, n, k) =>
      let digits := decimal s in
      if n <=? 21 then digits ++ zeros (Z.to_nat (n - k))
      else
        match digits with
        | String d rest =>
            String d (if k =? 1 then "" else String "." rest)
            ++ "e+" ++ decimal (n - 1)
        | EmptyString => ""
        end
  end.

Definition large (v : Z) : string :=
  if Infinity <=? v then "Infinity" else largeForm v.

(** [n.toString()] *)
Definition toString (n : Z) : string :=
  if (- safeLimit <? n) && (n <? safeLimit) then decimal n
  else if n <? 0 then "-" ++ large (- n) else large n.

(** [/^\d+$/.test(s)] *)
Definition isNumericName (s : string) : bool :=
  negb (String.eqb s "") && Str.forallb Str.isDigit s.

(** [Math.max(x, ...xs)] *)
Definition Math_max (x : Z) (xs : list Z) : Z := fold_left Z.max xs x.

(** A string in a boolean position: the empty string is falsy. *)
Definition truthy (s : string) : bool := negb (String.eqb s "").

(** ** JSON values and [JSON.stringify] *)

#[warnings="-register-all"]
Inductive JsValue :=
| JNull
| JBool (b : bool)
| JNumber (n : Z)
| JString (s : string)
| JArray (items : list JsValue)
| JObject (fields : list (string * JsValue)).

Module Json.

Definition nl : string := String newline "".

Fixpoint assoc (k : string) (fields : list (string * JsValue))
  : option JsValue :=
  match fields with
  | [] => None
  | (k', v) :: rest => if String.eqb k k' then Some v else assoc k rest
  end.

(** [v[k]] for an own property [k]; [None] is [undefined]. *)
Definition getProp (v : JsValue) (k : string) : option JsValue :=
  match v with
  | JObject fields => assoc k fields
  | _ => None
  end.

Definition hexDigit (n : nat) : ascii :=
  if (n <? 10)%nat then ascii_of_nat (48 + n) else ascii_of_nat (87 + n).

(** The escape of one character inside a JSON string literal. *)
Definition quoteChar (c : ascii) : string :=
  let n := nat_of_ascii c in
  if Ascii.eqb c dquote then String "\" (String dquote "")
  else if Ascii.eqb c "\" then "\\"
  else if (n =? 8)%nat then "\b"
  else if (n =? 12)%nat then "\f"
  else if (n =? 10)%nat then "\n"
  else if (n =? 13)%nat then "\r"
  else if (n =? 9)%nat then "\t"
  else if (n <? 32)%nat then
    "\u00" ++ String (hexDigit (n / 16)) (String (hexDigit (n mod 16)) "")
  else String c "".

Fixpoint quoteBody (s : string) : string :=
  match s with
  | EmptyString => EmptyString
  | String c s' => quoteChar c ++ quoteBody s'
  end.

(** [QuoteJSONString] *)
Definition quoteString (s : string) : string :=
  String dquote (quoteBody s ++ String dquote "").

(** [JSON.stringify(v, null, gap)] below the indentation [indent]. *)
Fixpoint serialize (gap indent : string) (v : JsValue) : string :=
  match v with
  | JNull => "null"
  | JBool true => "true"
  | JBool false => "false"
  | JNumber n => toString n
  | JString s => quoteString s
  | JArray [] => "[]"
  | JArray items =>
      let inner := indent ++ gap in
      "[" ++ nl ++ inner
      ++ Str.join ("," ++ nl ++ inner) (map (serialize gap inner) items)
      ++ nl ++ indent ++ "]"
  | JObject [] => "{}"
  | JObject fields =>
      let inner := indent ++ gap in
      "{" ++ nl ++ inner
      ++ Str.join ("," ++ nl ++ inner)
           (map (fun kv => quoteString (fst kv) ++ ": "
                           ++ serialize gap inner (snd kv)) fields)
      ++ nl ++ indent ++ "}"
  end.

(** [JSON.stringify(v, null, 2)] *)
Definition stringify2 (v : JsValue) : string := serialize "  " "" v.

(** A value in a boolean position. *)
Definition truthyValue (v : JsValue) : bool :=
  match v with
  | JNull => false
  | JBool b => b
  | JNumber n => negb (n =? 0)
  | JString s => truthy s
  | JArray _ | JObject _ => true
  end.


(** [v.k] as the code evaluates it: on [null] it throws the [TypeError]
    whose message is carried here. *)
Definition readProp (v : JsValue) (k : string) : result (option JsValue) :=
  match v with
  | JNull => Err ("Cannot read properties of null (reading '" ++ k ++ "')")
  | _ => Ok (getProp v k)
  end.

(** The number of a value that converts to one without a text to parse. *)
Definition numeric (v : JsValue) : option Z :=
  match v with
  | JNull => Some 0
  | JBool true => Some 1
  | JBool false => Some 0
  | JNumber n => Some n
  | JString _ | JArray _ | JObject _ => None
  end.

(** Whether the value has a primitive value.  A property read from JSON is
    never a function, so that an object that holds a property named
    [toString] has none; the others are plain objects.  An array has the
    texts of its items, joined. *)
Fixpoint hasText (v : JsValue) : bool :=
  match v with
  | JNull | JBool _ | JNumber _ | JString _ => true
  | JArray items => forallb hasText items
  | JObject fields =>
      match assoc "toString" fields with
      | Some _ => false
      | None => true
      end
  end.

(** The text of a value that has one. *)
Fixpoint toText (v : JsValue) : string :=
  match v with
  | JNull => "null"
  | JBool true => "true"
  | JBool false => "false"
  | JNumber n => toString n
  | JString s => s
  | JArray items =>
      Str.join ","
        (map (fun item => match item with
                          | JNull => ""
                          | _ => toText item
                          end) items)
  | JObject _ => "[object Object]"
  end.

(** The message of the [TypeError] thrown for a value that has no
    primitive value. *)
Definition cannotConvert : string :=
  "Cannot convert object to primitive value".

(** [`${v}`]: the text of the value inside a template literal. *)
Definition text (v : JsValue) : result string :=
  if hasText v then Ok (toText v) else Err cannotConvert.

End Json.

(** Where a text is expected, a value that has a text stands for it. *)
Coercion Json.toText : JsValue >-> string.

(** ** The host *)

(** [fs.Dirent], as [readdir] with [withFileTypes] returns it. *)
Record Dirent := { name : string; isDirectory : bool }.

(** How a child process started by [execAsync] ends: the promise resolves
    with both streams, or rejects with an error object that carries
    [stderr], [stdout] and [message]. *)
Inductive ExecOutcome :=
| Completed (stdout stderr : string)
| Rejected (stderr stdout message : string).

Record Host := {
  os_platform : string;
  os_release : string;
  os_homedir : string;
  env_APPDATA : option string;
  path_join : list string -> string;
  (** [fs.promises.stat] resolves *)
  fs_stat : string -> bool;
  (** [fs.promises.readdir]; [None] when it rejects *)
  fs_readdir : string -> option (list Dirent);
  (** [fs.promises.readFile]; [Err] carries the message of the rejection *)
  fs_readFile : string -> result string;
  (** [JSON.parse]; [Err] carries the message of the [SyntaxError] *)
  JSON_parse : string -> result JsValue;
  (** [a > b] of the language on two values of which one is a string, an
      array or an object: it goes through their texts and through the
      numbers these texts spell, which is not computed here *)
  js_greater : JsValue -> JsValue -> bool;
  (** the shell command run by [child_process.exec] *)
  exec : string -> ExecOutcome
}.

(** [undefined] is a primitive value. *)
Definition primitive (v : option JsValue) : bool :=
  match v with
  | Some x => Json.hasText x
  | None => true
  end.

(** [a > b] on what two property accesses gave.  Both operands are first
    converted to primitive values, which throws for one that has none;
    [undefined] is not a number, so nothing is greater or less than it;
    [null], booleans and numbers are compared as numbers. *)
Definition greater (h : Host) (a b : option JsValue) : result bool :=
  if primitive a && primitive b then
    Ok match a, b with
       | Some x, Some y =>
           match Json.numeric x, Json.numeric y with
           | Some p, Some q => p >? q
           | _, _ => js_greater h x y
           end
       | None, _ | _, None => false
       end
  else Err Json.cannotConvert.

(** ** [getApiMetadata] *)

Module Locator.

Record ApiMetadata := {
  apiProvider : JsValue;
  modelName : JsValue;
  ideUsed : string
}.

Definition ideApps : list string := ["Code"; "Cursor"; "Windsurf"].

Definition extensionId : string := "saoudrizwan.claude-dev".

(** The candidate directories, one per IDE application, by platform. *)
Definition possiblePaths (h : Host) : result (list string) :=
  let platform := os_platform h in
  if String.eqb platform "win32" then
    match env_APPDATA h with
    | Some appData =>
        if truthy appData then
          Ok (map (fun app =>
                     path_join h [appData; app; "User"; "globalStorage";
                                  extensionId; "tasks"]) ideApps)
        else Err "APPDATA environment variable is not defined"
    | None => Err "APPDATA environment variable is not defined"
    end
  else if String.eqb platform "darwin" then
    Ok (map (fun app =>
               path_join h [os_homedir h; "Library"; "Application Support";
                            app; "User"; "globalStorage"; extensionId;
                            "tasks"]) ideApps)
  else if String.eqb platform "linux" then
    Ok (map (fun app =>
               path_join h [os_homedir h; ".config"; app; "User";
                            "globalStorage"; extensionId; "tasks"]) ideApps)
  else Err ("Unsupported operating system: " ++ platform).

(** The body of the [try] inside the loop, up to [numericDirs]; [None]
    when [stat] or [readdir] throws. *)
Definition numericDirs (h : Host) (basePath : string) : option (list Z) :=
  if fs_stat h basePath then
    match fs_readdir h basePath with
    | Some entries =>
        Some (map (fun entry => parseInt10 (name entry))
                (filter (fun entry =>
                           isDirectory entry && isNumericName (name entry))
                   entries))
    | None => None
    end
  else None.

(** The loop variables [highestOverallTaskNumber] and [finalBasePath]. *)
Definition ScanState : Type := Z * option string.

Definition scanInit : ScanState := (-1, None).

(** One iteration of [for (const basePath of possiblePaths)]. *)
Definition scanStep (h : Host) (st : ScanState) (basePath : string)
  : ScanState :=
  match numericDirs h basePath with
  | Some (n :: ns) =>
      let currentHighestTaskNumber := Math_max n ns in
      if currentHighestTaskNumber >? fst st
      then (currentHighestTaskNumber, Some basePath)
      else st
  | Some [] => st
  | None => st                      (* catch: continue *)
  end.

Definition scan (h : Host) (paths : list string) : ScanState :=
  fold_left (scanStep h) paths scanInit.

(** The loop that derives [ideUsed] from the chosen path. *)
Fixpoint ideOfPath (ideNames : list string) (finalBasePath : string)
  : string :=
  match ideNames with
  | [] => "Unknown"
  | ideName :: rest =>
      if Str.includes ideName finalBasePath then ideName
      else ideOfPath rest finalBasePath
  end.

Definition metadataFilePath (h : Host) (finalBasePath : string) (n : Z)
  : string :=
  path_join h [finalBasePath; toString n; "task_metadata.json"].

(** The callback of [model_usage.reduce]:
    [!latest || current.ts > latest.ts ? current : latest].  The
    accumulator starts as [null]; [current.ts] throws on a [null] entry,
    [latest.ts] is read from a value that is not falsy, and the comparison
    throws on a timestamp without a primitive value. *)
Definition later (h : Host) (latest current : JsValue) : result JsValue :=
  if negb (Json.truthyValue latest) then Ok current
  else
    match Json.readProp current "ts" with
    | Err message => Err message
    | Ok currentTs =>
        match greater h currentTs (Json.getProp latest "ts") with
        | Err message => Err message
        | Ok true => Ok current
        | Ok false => Ok latest
        end
    end.

(** [usage.reduce(callback, latest)] *)
Fixpoint reduce (h : Host) (usage : list JsValue) (latest : JsValue)
  : result JsValue :=
  match usage with
  | [] => Ok latest
  | current :: rest =>
      match later h latest current with
      | Err message => Err message
      | Ok latest' => reduce h rest latest'
      end
  end.

Definition latestEntry (h : Host) (usage : list JsValue) : result JsValue :=
  reduce h usage JNull.

Definition invalidUsage : string :=
  "Invalid metadata format: model_usage array missing or empty".

Definition invalidLatest : string :=
  "Invalid metadata format: latest entry missing required fields".

(** The identifiers of the latest entry, when the entry and both of them
    are truthy. *)
Definition identifiers (e : JsValue) : option (JsValue * JsValue) :=
  if Json.truthyValue e then
    match Json.getProp e "model_provider_id", Json.getProp e "model_id" with
    | Some p, Some m =>
        if Json.truthyValue p && Json.truthyValue m then Some (p, m) else None
    | _, _ => None
    end
  else None.

(** The body of the second [try]. *)
Definition readLatest (h : Host) (file : string) : result (JsValue * JsValue) :=
  match fs_readFile h file with
  | Err msg => Err msg
  | Ok metadataContent =>
      match JSON_parse h metadataContent with
      | Err msg => Err msg
      | Ok metadata =>
          match Json.readProp metadata "model_usage" with
          | Err msg => Err msg
          | Ok (Some (JArray (u :: usage))) =>
              match latestEntry h (u :: usage) with
              | Err msg => Err msg
              | Ok e =>
                  match identifiers e with
                  | Some pm => Ok pm
                  | None => Err invalidLatest
                  end
              end
          | Ok _ => Err invalidUsage
          end
      end
  end.

Definition ideNames : list string := ["Code"; "Cursor"; "Windsurf"].

(** Everything after the scan: the label of the chosen directory and the
    read of its highest record. *)
Definition readRecord (h : Host) (finalBasePath : string)
  (highestOverallTaskNumber : Z) : result ApiMetadata :=
  let ide := ideOfPath ideNames finalBasePath in
  match readLatest h
          (metadataFilePath h finalBasePath highestOverallTaskNumber)
  with
  | Ok (p, m) => Ok {| apiProvider := p; modelName := m; ideUsed := ide |}
  | Err errorMessage =>
      Err ("Error reading or parsing metadata file: " ++ errorMessage)
  end.

Definition getApiMetadata (h : Host) : result ApiMetadata :=
  match possiblePaths h with
  | Err msg => Err msg
  | Ok paths =>
      match scan h paths with
      | (_, None) => Err "Could not find any valid task directories"
      | (highestOverallTaskNumber, Some finalBasePath) =>
          readRecord h finalBasePath highestOverallTaskNumber
      end
  end.

(** *** Vocabulary of the statements about the locator *)

(** The highest record number of one candidate directory, when it can be
    read and holds a numeric subdirectory. *)
Definition dirHighest (h : Host) (basePath : string) : option Z :=
  match numericDirs h basePath with
  | Some (n :: ns) => Some (Math_max n ns)
  | Some [] | None => None
  end.

(** [basePath] can be read and holds a subdirectory named by the decimal
    numeral of [n]. *)
Definition hasRecord (h : Host) (basePath : string) (n : Z) : Prop :=
  fs_stat h basePath = true /\
  exists entries entry,
    fs_readdir h basePath = Some entries /\ In entry entries /\
    isDirectory entry = true /\ isNumericName (name entry) = true /\
    parseInt10 (name entry) = n.

(** [basePath] can be read and holds a subdirectory with the numeric
    name [s]. *)
Definition hasName (h : Host) (basePath : string) (s : string) : Prop :=
  fs_stat h basePath = true /\
  exists entries entry,
    fs_readdir h basePath = Some entries /\ In entry entries /\
    isDirectory entry = true /\ isNumericName (name entry) = true /\
    name entry = s.

(** The timestamp of a usage entry that is an object with a number under
    [ts]. *)
Definition timestamp (e : JsValue) : option Z :=
  match e with
  | JObject fields =>
      match Json.assoc "ts" fields with
      | Some (JNumber t) => Some t
      | _ => None
      end
  | _ => None
  end.









End Locator.

(** ** The request handler *)

(** The child processes a computation starts, in order, beside its value. *)
Definition Proc (A : Type) : Type := A * list string.

Definition ret {A} (a : A) : Proc A := (a, []).

Definition bind {A B} (m : Proc A) (k : A -> Proc B) : Proc B :=
  (fst (k (fst m)), (snd m ++ snd (k (fst m)))%list).

Notation "x <- m ;; k" := (bind m (fun x => k))
  (at level 61, m at next level, right associativity).

Definition value {A} (m : Proc A) : A := fst m.
Definition spawned {A} (m : Proc A) : list string := snd m.

(** [await execAsync(command)] *)
Definition execAsync (h : Host) (command : string) : Proc ExecOutcome :=
  (exec h command, [command]).

Record Request := {
  params_name : string;
  params_arguments : option JsValue
}.

Record Response := {
  text : string;
  isError : bool
}.

Inductive ErrorCode := MethodNotFound | InvalidParams | InternalError.

Inductive Outcome :=
| Return (r : Response)
| Throw (code : ErrorCode) (message : string).

Definition gitHubLabels : list string :=
  [ "Bounty"; "Bug"; "dependencies"; "documentation"; "Enhancement";
    "Good First Issue"; "Help Wanted"; "In Progress"; "Invalid"; "javascript";
    "Question"; "Reported by Cline"; "RFR"; "Triaged"; "Won't/Unable to Fix" ].

(** The schema both tools advertise; the handler hands it out and does
    not consult it. *)
Definition inputSchema : JsValue :=
  JObject
    [ ("type", JString "object");
      ("properties",
       JObject
         [ ("description",
            JObject
              [ ("type", JString "string");
                ("description",
                 JString "The user's detailed description of the problem.") ]);
           ("title",
            JObject
              [ ("type", JString "string");
                ("description", JString "The title for the GitHub issue.") ]);
           ("labels",
            JObject
              [ ("type", JString "array");
                ("items",
                 JObject [ ("type", JString "string");
                           ("enum", JArray (map JString gitHubLabels)) ]);
                ("description",
                 JString "Optional: Array of allowed labels to apply to the issue.") ]) ]);
      ("required", JArray [JString "description"; JString "title"]) ].

Record Tool := {
  tool_name : string;
  tool_description : string;
  tool_inputSchema : JsValue
}.

(** The handler registered for [ListToolsRequestSchema]. *)
Definition listTools : list Tool :=
  [ {| tool_name := "preview_cline_issue";
       tool_description :=
         "Previews how an issue would look when reported to GitHub. Gathers OS info and Cline version automatically but does not submit the issue. This tool is always called first to preview the issue before reporting it.";
       tool_inputSchema := inputSchema |};
    {| tool_name := "report_cline_issue";
       tool_description :=
         "Reports an issue to a GitHub repository using the locally authenticated GitHub CLI (`gh`). Gathers OS info and Cline version automatically.";
       tool_inputSchema := inputSchema |} ].

(** The labels the schema enumerates. *)
Definition declaredLabels (schema : JsValue) : option JsValue :=
  match Json.getProp schema "properties" with
  | Some properties =>
      match Json.getProp properties "labels" with
      | Some labels =>
          match Json.getProp labels "items" with
          | Some items => Json.getProp items "enum"
          | None => None
          end
      | None => None
      end
  | None => None
  end.

Definition isString (v : option JsValue) : bool :=
  match v with Some (JString _) => true | _ => false end.

Definition isValidReportArgs (args : option JsValue) : bool :=
  match args with
  | Some (JObject _ as a) | Some (JArray _ as a) =>
      isString (Json.getProp a "description")
      && isString (Json.getProp a "title")
      && match Json.getProp a "labels" with
         | None => true
         | Some (JArray ls) => forallb (fun l => isString (Some l)) ls
         | Some _ => false
         end
  | _ => false
  end.

(** The destructuring [const { description, title, labels } = arguments] of
    arguments that passed [isValidReportArgs]. *)
Definition stringOf (v : option JsValue) : string :=
  match v with Some (JString s) => s | _ => "" end.

Definition labelsOf (v : option JsValue) : option (list string) :=
  match v with
  | Some (JArray ls) => Some (map (fun l => stringOf (Some l)) ls)
  | _ => None
  end.

Definition repo : string := "cline/cline".

Definition versionCommand (ide searchCmd : string) : string :=
  ide ++ " --list-extensions --show-versions | " ++ searchCmd
  ++ " saoudrizwan.claude-dev".

Definition versionTag : string := "saoudrizwan.claude-dev@".

Definition isVersionChar (c : ascii) : bool :=
  Str.isDigit c || Ascii.eqb c ".".

(** [stdout.match(/saoudrizwan\.claude-dev@([\d.]+)/)], the first group of
    the leftmost match. *)
Fixpoint matchVersion (stdout : string) : option string :=
  match stdout with
  | EmptyString => None
  | String _ rest =>
      let group :=
        Str.takeWhile isVersionChar (Str.drop (String.length versionTag) stdout)
      in
      if Str.startsWith versionTag stdout && truthy group then Some group
      else matchVersion rest
  end.

(** [for (const ide of ides)] with its [break] and [continue]. *)
Fixpoint probeIdes (h : Host) (searchCmd : string) (ides : list string)
  : Proc string :=
  match ides with
  | [] => ret "unknown"
  | ide :: rest =>
      r <- execAsync h (versionCommand ide searchCmd) ;;
      match r with
      | Completed stdout _ =>
          match matchVersion stdout with
          | Some v => ret v
          | None => probeIdes h searchCmd rest
          end
      | Rejected _ _ _ => probeIdes h searchCmd rest
      end
  end.

Definition ides : list string := ["code"; "cursor"; "windsurf"].

Definition detectClineVersion (h : Host) : Proc string :=
  let isWindows := String.eqb (os_platform h) "win32" in
  let searchCmd := if isWindows then "findstr" else "grep" in
  probeIdes h searchCmd ides.

(** The template literal [formattedBody], split at the separator. *)
Definition preamble (clineVersion ideUsed osPlatform osRelease apiProvider
                       modelName : string) : string :=
  "**Reported by:** User via Cline Issue Reporter MCP" ++ Json.nl
  ++ "**Cline Version:** " ++ clineVersion ++ Json.nl
  ++ "**IDE:** " ++ ideUsed ++ Json.nl
  ++ "**OS:** " ++ osPlatform ++ " (" ++ osRelease ++ ")" ++ Json.nl
  ++ "**API Provider:** " ++ apiProvider ++ Json.nl
  ++ "**Model:** " ++ modelName ++ Json.nl.

Definition separator : string :=
  Json.nl ++ "---" ++ Json.nl ++ Json.nl ++ "**Description:**" ++ Json.nl.

Definition formatBody (clineVersion ideUsed osPlatform osRelease apiProvider
                         modelName description : string) : string :=
  preamble clineVersion ideUsed osPlatform osRelease apiProvider modelName
  ++ separator ++ description.

(** The object handed to [JSON.stringify] by the preview branch. *)
Definition previewObject (title formattedBody : string)
  (labels : option (list string)) : JsValue :=
  JObject
    [ ("title", JString title);
      ("body", JString formattedBody);
      ("labels", JArray (map JString match labels with
                                     | Some ls => ls
                                     | None => []
                                     end));
      ("repository", JString repo) ].

(** The [--label] suffix: only for a list that is present and not empty. *)
Definition labelSuffix (labels : option (list string)) : string :=
  match labels with
  | Some (l :: ls) =>
      " --label " ++ Str.join "," (map escapeShellArg (l :: ls))
  | Some [] | None => ""
  end.

Definition ghCommand (title formattedBody : string)
  (labels : option (list string)) : string :=
  "gh issue create --repo " ++ escapeShellArg repo
  ++ " --title " ++ escapeShellArg title
  ++ " --body " ++ escapeShellArg formattedBody
  ++ labelSuffix labels.

(** The argument vector the shell builds from the [gh] command. *)
Definition ghArgv (title formattedBody : string)
  (labels : option (list string)) : list string :=
  ["gh"; "issue"; "create"; "--repo"; repo; "--title"; title;
   "--body"; formattedBody]
  ++ match labels with
     | Some (l :: ls) => ["--label"; Str.join "," (l :: ls)]
     | Some [] | None => []
     end.

Definition failure (message : string) : Outcome :=
  Return {| text := message; isError := true |}.

Definition success (message : string) : Outcome :=
  Return {| text := message; isError := false |}.

(** The handling of a completed [gh] process. *)
Definition ghResult (ghStdout ghStderr : string) : Outcome :=
  if truthy ghStderr && negb (truthy ghStdout)
  then failure ("GitHub CLI Error: " ++ ghStderr)
  else success (if truthy ghStdout then ghStdout
                else "Issue reported successfully (no stdout from gh).").

(** [a || b || c] on strings. *)
Definition firstTruthy (a b c : string) : string :=
  if truthy a then a else if truthy b then b else c.

(** The outer [catch], on an error with these [stderr], [stdout] and
    [message], the empty text standing for a property that is missing:
    the rejection of [execAsync(ghCommand)], or a [TypeError]. *)
Definition ghRejected (stderr stdout message : string) : Outcome :=
  let errorMessage := firstTruthy stderr stdout message in
  if truthy errorMessage then
    if Str.includes "gh not found" errorMessage
       || Str.includes "command not found" errorMessage
    then failure "Error: GitHub CLI ('gh') not found. Please install it and authenticate (`gh auth login`)."
    else if Str.includes "authentication required" errorMessage
    then failure "Error: GitHub CLI authentication required. Please run `gh auth login`."
    else failure ("Command execution failed: " ++ errorMessage)
  else Throw InternalError ("Failed to report issue: " ++ message).

Definition metadataFailure (errorMessage : string) : Outcome :=
  failure ("Error retrieving API metadata: " ++ errorMessage
           ++ ". Please try again or provide apiProvider and modelName manually.").

Definition invalidArguments (toolName : string) : Outcome :=
  Throw InvalidParams
    ("Invalid arguments for " ++ toolName
     ++ ". Requires: description (string), title (string), labels (string[], optional).").

(** The [try] block of the handler, for arguments that passed the
    validation. *)
Definition handleIssue (h : Host) (toolName title description : string)
  (labels : option (list string)) : Proc Outcome :=
  let osPlatform := os_platform h in
  let osRelease := os_release h in
  match Locator.getApiMetadata h with
  | Err errorMessage => ret (metadataFailure errorMessage)
  | Ok apiMetadata =>
      clineVersion <- detectClineVersion h ;;
      match Json.text (Locator.apiProvider apiMetadata),
            Json.text (Locator.modelName apiMetadata) with
      | Ok apiProvider, Ok modelName =>
          let formattedBody :=
            formatBody clineVersion (Locator.ideUsed apiMetadata) osPlatform
              osRelease apiProvider modelName description in
          if String.eqb toolName "preview_cline_issue"
          then ret (success (Json.stringify2
                               (previewObject title formattedBody labels)))
          else
            r <- execAsync h (ghCommand title formattedBody labels) ;;
            match r with
            | Completed ghStdout ghStderr => ret (ghResult ghStdout ghStderr)
            | Rejected stderr stdout message =>
                ret (ghRejected stderr stdout message)
            end
      | Err message, _ | Ok _, Err message =>
          (* the template literal throws: the outer catch, on an error
             without [stderr] and [stdout] *)
          ret (ghRejected "" "" message)
      end
  end.

(** The handler registered for [CallToolRequestSchema]. *)
Definition callTool (h : Host) (request : Request) : Proc Outcome :=
  let toolName := params_name request in
  if negb (String.eqb toolName "report_cline_issue")
     && negb (String.eqb toolName "preview_cline_issue")
  then ret (Throw MethodNotFound ("Unknown tool: " ++ toolName))
  else if negb (isValidReportArgs (params_arguments request))
  then ret (invalidArguments toolName)
  else
    let args := match params_arguments request with
                | Some a => a
                | None => JNull
                end in
    handleIssue h toolName
      (stringOf (Json.getProp args "title"))
      (stringOf (Json.getProp args "description"))
      (labelsOf (Json.getProp args "labels")).

(** *** Vocabulary of the statements about the handler *)

(** The version a finished probe yields, if any. *)
Definition versionFrom (outcome : ExecOutcome) : option string :=
  match outcome with
  | Completed stdout _ => matchVersion stdout
  | Rejected _ _ _ => None
  end.

Definition searchCmdOf (h : Host) : string :=
  if String.eqb (os_platform h) "win32" then "findstr" else "grep".

(** The body of the issue a request with this description gets on [h]. *)
Definition bodyOn (h : Host) (md : Locator.ApiMetadata) (description : string)
  : string :=
  formatBody (value (detectClineVersion h)) (Locator.ideUsed md)
    (os_platform h) (os_release h) (Json.toText (Locator.apiProvider md))
    (Json.toText (Locator.modelName md)) description.

(** Both identifiers that the locator returned have a text, so that the
    template literal of the body does not throw. *)
Definition printable (md : Locator.ApiMetadata) : bool :=
  Json.hasText (Locator.apiProvider md)
  && Json.hasText (Locator.modelName md).

(** The two operations of the server. *)
Definition knownTool (toolName : string) : Prop :=
  toolName = "preview_cline_issue" \/ toolName = "report_cline_issue".

(** The arguments [args] carry this title, description and labels. *)
Definition carries (args : JsValue) (title description : string)
  (labels : option (list string)) : Prop :=
  Json.getProp args "title" = Some (JString title) /\
  Json.getProp args "description" = Some (JString description) /\
  Json.getProp args "labels"
  = option_map (fun ls => JArray (map JString ls)) labels.

(** ** Sample hosts *)

Module Sample.

(** [path.join] on POSIX, for segments that need no normalisation. *)
Definition posixJoin (parts : list string) : string :=
  String.concat "/" parts.

Definition tasks (app : string) : string :=
  "/home/dev/.config/" ++ app
  ++ "/User/globalStorage/saoudrizwan.claude-dev/tasks".

Definition dir (n : string) : Dirent := {| name := n; isDirectory := true |}.
Definition file (n : string) : Dirent := {| name := n; isDirectory := false |}.

(** An identifier of a usage entry, when it has one. *)
Definition field (key : string) (v : option string)
  : list (string * JsValue) :=
  match v with
  | Some text => [(key, JString text)]
  | None => []
  end.

(** A usage entry as the extension writes it. *)
Definition entry (t : Z) (provider model : option string) : JsValue :=
  JObject ([("ts", JNumber t)] ++ field "model_id" model
           ++ field "model_provider_id" provider
           ++ [("mode", JString "act")]).

Definition usage : list JsValue :=
  [ entry 1 (Some "anthropic") (Some "haiku");
    entry 5 (Some "P") (Some "M");
    entry 3 None None ].

(** A sidecar with this usage list. *)
Definition document (usage : list JsValue) : JsValue :=
  JObject [("model_usage", JArray usage)].

Definition readdir (path : string) : option (list Dirent) :=
  if String.eqb path (tasks "Code") then
    Some [dir "1700000000001"; file "1800000000000"; dir "1700000000005";
          dir "settings"]
  else if String.eqb path (tasks "Cursor") then
    Some [dir "1700000000005"; dir "1700000000003"]
  else None.

Definition readFile (path : string) : result string :=
  if String.eqb path (tasks "Code" ++ "/1700000000005/task_metadata.json")
  then Ok "sidecar of task 1700000000005"
  else Err ("ENOENT: no such file or directory, open '" ++ path ++ "'").

Definition parse (content : string) : result JsValue :=
  if String.eqb content "sidecar of task 1700000000005"
  then Ok (document usage)
  else Err "Unexpected token in JSON at position 0".

Definition issueUrl : string := "https://github.com/cline/cline/issues/1".

(** [code] is not installed, [cursor] lists the extension, [gh] prints the
    address of the new issue. *)
Definition run (command : string) : ExecOutcome :=
  if String.eqb command (versionCommand "cursor" "grep")
  then Completed ("saoudrizwan.claude-dev@3.17.4" ++ Json.nl) ""
  else if Str.startsWith "gh " command
  then Completed issueUrl ""
  else Rejected "/bin/sh: 1: code: not found" ""
         ("Command failed: " ++ command).

Definition linux : Host :=
  {| os_platform := "linux";
     os_release := "6.8.0";
     os_homedir := "/home/dev";
     env_APPDATA := None;
     path_join := posixJoin;
     fs_stat := fun path => String.eqb path (tasks "Code")
                            || String.eqb path (tasks "Cursor");
     fs_readdir := readdir;
     fs_readFile := readFile;
     JSON_parse := parse;
     js_greater := fun _ _ => false;
     exec := run |}.

Definition withExec (h : Host) (f : string -> ExecOutcome) : Host :=
  {| os_platform := os_platform h;
     os_release := os_release h;
     os_homedir := os_homedir h;
     env_APPDATA := env_APPDATA h;
     path_join := path_join h;
     fs_stat := fs_stat h;
     fs_readdir := fs_readdir h;
     fs_readFile := fs_readFile h;
     JSON_parse := JSON_parse h;
     js_greater := js_greater h;
     exec := f |}.

(** [linux], with a [gh] that completes with these two streams. *)
Definition ghSays (stdout stderr : string) : Host :=
  withExec linux
    (fun command =>
       if Str.startsWith "gh " command then Completed stdout stderr
       else run command).

Definition withPlatform (h : Host) (platform : string) : Host :=
  {| os_platform := platform;
     os_release := os_release h;
     os_homedir := os_homedir h;
     env_APPDATA := env_APPDATA h;
     path_join := path_join h;
     fs_stat := fs_stat h;
     fs_readdir := fs_readdir h;
     fs_readFile := fs_readFile h;
     JSON_parse := JSON_parse h;
     js_greater := js_greater h;
     exec := exec h |}.

(** [h], with a sidecar that parses to this document. *)
Definition withDocument (h : Host) (doc : JsValue) : Host :=
  {| os_platform := os_platform h;
     os_release := os_release h;
     os_homedir := os_homedir h;
     env_APPDATA := env_APPDATA h;
     path_join := path_join h;
     fs_stat := fs_stat h;
     fs_readdir := fs_readdir h;
     fs_readFile := fs_readFile h;
     JSON_parse := fun content =>
                     match JSON_parse h content with
                     | Ok _ => Ok doc
                     | Err message => Err message
                     end;
     js_greater := js_greater h;
     exec := exec h |}.

Definition arguments (title description : string)
  (labels : option (list string)) : JsValue :=
  JObject
    ([("title", JString title); ("description", JString description)]
     ++ match labels with
        | Some ls => [("labels", JArray (map JString ls))]
        | None => []
        end).

Definition preview (title description : string)
  (labels : option (list string)) : Request :=
  {| params_name := "preview_cline_issue";
     params_arguments := Some (arguments title description labels) |}.

Definition report (title description : string)
  (labels : option (list string)) : Request :=
  {| params_name := "report_cline_issue";
     params_arguments := Some (arguments title description labels) |}.

End Sample.

(** ** Further vocabulary *)

(** The destructured arguments of a request. *)
Definition argsOf (request : Request) : JsValue :=
  match params_arguments request with
  | Some a => a
  | None => JNull
  end.

Definition titleOf (request : Request) : string :=
  stringOf (Json.getProp (argsOf request) "title").

Definition descriptionOf (request : Request) : string :=
  stringOf (Json.getProp (argsOf request) "description").

Definition labelsOfRequest (request : Request) : option (list string) :=
  labelsOf (Json.getProp (argsOf request) "labels").

(** The names the server advertises through [listTools]. *)
Definition advertisedNames : list string := map tool_name listTools.

(** The [gh] command a report of this request runs on [h] once the locator
    has returned [md]. *)
Definition ghCommandOn (h : Host) (md : Locator.ApiMetadata)
  (request : Request) : string :=
  ghCommand (titleOf request) (bodyOn h md (descriptionOf request))
    (labelsOfRequest request).

(** [h] with another directory listing. *)
Definition withReaddir (h : Host) (f : string -> option (list Dirent)) : Host :=
  {| os_platform := os_platform h;
     os_release := os_release h;
     os_homedir := os_homedir h;
     env_APPDATA := env_APPDATA h;
     path_join := path_join h;
     fs_stat := fs_stat h;
     fs_readdir := f;
     fs_readFile := fs_readFile h;
     JSON_parse := JSON_parse h;
     js_greater := js_greater h;
     exec := exec h |}.

(** The sample host, where the one record of Code is named
    9007199254740992 and the one of Cursor 9007199254740993. *)
Definition beyondDoubles : Host :=
  withReaddir Sample.linux
    (fun path =>
       if String.eqb path (Sample.tasks "Code")
       then Some [Sample.dir "9007199254740992"]
       else if String.eqb path (Sample.tasks "Cursor")
       then Some [Sample.dir "9007199254740993"]
       else None).

(** A usage list whose first entry holds no timestamp. *)
Definition withoutTimestamp : list JsValue :=
  [ JObject [("model_id", JString "Y"); ("model_provider_id", JString "X")];
    Sample.entry 7 (Some "P") (Some "M") ].


(** Two results of [readdir] that differ at most in the order of the
    entries. *)
Definition sameListing (a b : option (list Dirent)) : Prop :=
  match a, b with
  | Some xs, Some ys => Permutation.Permutation xs ys
  | None, None => True
  | _, _ => False
  end.

(** A numeral as [toString] writes it: digits only, and no leading zero
    unless it is the numeral of zero. *)
Definition isCanonicalName (s : string) : bool :=
  isNumericName s && (String.eqb s "0" || negb (Str.startsWith "0" s)).

(** [linux], with a [gh] that is rejected with these three texts. *)
Definition ghFails (stderr stdout message : string) : Host :=
  Sample.withExec Sample.linux
    (fun command =>
       if Str.startsWith "gh " command then Rejected stderr stdout message
       else Sample.run command).

(** * Checks on concrete inputs *)

Example escapeShellArg_plain : escapeShellArg "cline/cline" = "'cline/cline'".
Proof. reflexivity. Qed.

Example escapeShellArg_quote :
  escapeShellArg "it's; rm -rf /" = "'it'\''s; rm -rf /'".
Proof. reflexivity. Qed.

Example words_quote :
  Sh.words ("gh --title " ++ escapeShellArg "it's; rm -rf /")
  = Some ["gh"; "--title"; "it's; rm -rf /"].
Proof. reflexivity. Qed.

Example sample_locator :
  Locator.getApiMetadata Sample.linux
  = Ok {| Locator.apiProvider := JString "P";
          Locator.modelName := JString "M";
          Locator.ideUsed := "Code" |}.
Proof. vm_compute. reflexivity. Qed.

Example sample_scan :
  Locator.possiblePaths Sample.linux
  = Ok [Sample.tasks "Code"; Sample.tasks "Cursor"; Sample.tasks "Windsurf"]
  /\ Locator.scan Sample.linux
       [Sample.tasks "Code"; Sample.tasks "Cursor"; Sample.tasks "Windsurf"]
     = (1700000000005, Some (Sample.tasks "Code")).
Proof. split; vm_compute; reflexivity. Qed.

(** * Strings: algebra of concatenation *)

Lemma append_nil_r (s : string) : s ++ "" = s.
Proof. induction s as [|c s IH]; simpl; [reflexivity | now rewrite IH]. Qed.

Lemma append_assoc (a b c : string) : (a ++ b) ++ c = a ++ b ++ c.
Proof. induction a as [|x a IH]; simpl; [reflexivity | now rewrite IH]. Qed.

Lemma snoc_append (w : string) (c : ascii) (s : string) :
  Str.snoc w c ++ s = w ++ String c s.
Proof. unfold Str.snoc. now rewrite append_assoc. Qed.

Lemma startsWith_split (p s : string) :
  Str.startsWith p s = true -> s = p ++ Str.drop (String.length p) s.
Proof.
  revert s. induction p as [|a p IH]; intros s E; [reflexivity|].
  destruct s as [|b s]; [discriminate|]. cbn in E.
  apply andb_true_iff in E. destruct E as [A E].
  apply Ascii.eqb_eq in A. subst b. cbn. now rewrite <- (IH s E).
Qed.

Lemma startsWith_append (p rest : string) :
  Str.startsWith p (p ++ rest) = true
  /\ Str.drop (String.length p) (p ++ rest) = rest.
Proof.
  induction p as [|a p [IH1 IH2]]; [now split|].
  cbn. now rewrite Ascii.eqb_refl, IH1, IH2.
Qed.

Section Substrings.

(** [includes] finds a text exactly when it stands somewhere in the
    string. *)
Lemma startsWith_iff (p s : string) :
  Str.startsWith p s = true <-> exists b, s = p ++ b.
Proof.
  split.
  - intro E. exists (Str.drop (String.length p) s). now apply startsWith_split.
  - intros (b & ->). apply startsWith_append.
Qed.

Lemma includes_iff (p s : string) :
  Str.includes p s = true <-> exists a b, s = a ++ p ++ b.
Proof.
  induction s as [|c s IH].
  - cbn [Str.includes]. rewrite orb_false_r, startsWith_iff. split.
    + intros (b & E). now exists "", b.
    + intros (a & b & E). destruct a; [now exists b|discriminate].
  - cbn [Str.includes]. rewrite orb_true_iff, startsWith_iff, IH. split.
    + intros [(b & E)|(a & b & E)].
      * now exists "", b.
      * exists (String c a), b. cbn [append]. now rewrite E.
    + intros (a & b & E). destruct a as [|c' a].
      * left. now exists b.
      * right. cbn [append] in E. injection E as _ E. now exists a, b.
Qed.

Lemma includes_middle (p a b : string) : Str.includes p (a ++ p ++ b) = true.
Proof. apply includes_iff. now exists a, b. Qed.

End Substrings.

(** * The shell reads back what [escapeShellArg] wrote *)

Section ShellRoundTrip.

Import Sh.

(** Inside single quotes the escaped text adds exactly the original
    characters to the word in progress, and leaves the quotation. *)
Lemma lex_single_escaped (s w rest : string) :
  lex Single (Some w) (Str.replaceAll quote "'\''" s ++ String quote rest)
  = lex Unquoted (Some (w ++ s)) rest.
Proof.
  revert w. induction s as [|a s IH]; intro w.
  - simpl. now rewrite append_nil_r.
  - cbn [Str.replaceAll]. destruct (Ascii.eqb a quote) eqn:E.
    + apply Ascii.eqb_eq in E. subst a.
      change (lex Single (Some w)
                (("'\''" ++ Str.replaceAll quote "'\''" s) ++ String quote rest))
        with (lex Single (Some (Str.snoc w quote))
                (Str.replaceAll quote "'\''" s ++ String quote rest)).
      rewrite IH. now rewrite snoc_append.
    + cbn [append lex]. rewrite E. cbn [push].
      rewrite IH. now rewrite snoc_append.
Qed.

Lemma lex_escaped_arg (cur : option string) (s rest : string) :
  lex Unquoted cur (escapeShellArg s ++ rest)
  = lex Unquoted
      (Some (match cur with Some w => w ++ s | None => s end)) rest.
Proof.
  unfold escapeShellArg.
  change (lex Unquoted cur
            (("'" ++ Str.replaceAll quote "'\''" s ++ "'") ++ rest))
    with (lex Single (start cur)
            ((Str.replaceAll quote "'\''" s ++ "'") ++ rest)).
  rewrite append_assoc.
  change ("'" ++ rest) with (String quote rest).
  destruct cur as [w|]; cbn [start]; now rewrite lex_single_escaped.
Qed.

(** Escaped labels joined by commas are read as one word: the labels
    joined by commas. *)
Lemma lex_joined_labels (ls : list string) (l w rest : string) :
  lex Unquoted (Some w)
    (Str.join "," (map escapeShellArg (l :: ls)) ++ rest)
  = lex Unquoted (Some (w ++ Str.join "," (l :: ls))) rest.
Proof.
  revert l w. induction ls as [|l' ls IH]; intros l w.
  - cbn [map Str.join]. now rewrite lex_escaped_arg.
  - change (Str.join "," (map escapeShellArg (l :: l' :: ls)))
      with (escapeShellArg l ++ ","
            ++ Str.join "," (map escapeShellArg (l' :: ls))).
    change (Str.join "," (l :: l' :: ls))
      with (l ++ "," ++ Str.join "," (l' :: ls)).
    rewrite append_assoc, lex_escaped_arg.
    change (lex Unquoted (Some (w ++ l))
              (("," ++ Str.join "," (map escapeShellArg (l' :: ls))) ++ rest))
      with (lex Unquoted (Some (Str.snoc (w ++ l) ","))
              (Str.join "," (map escapeShellArg (l' :: ls)) ++ rest)).
    rewrite IH. unfold Str.snoc. now rewrite !append_assoc.
Qed.

Lemma lex_gh_prefix (rest : string) :
  lex Unquoted None ("gh issue create --repo " ++ rest)
  = flush (Some "gh")
      (flush (Some "issue")
         (flush (Some "create")
            (flush (Some "--repo") (lex Unquoted None rest)))).
Proof. reflexivity. Qed.

Lemma lex_title_flag (w rest : string) :
  lex Unquoted (Some w) (" --title " ++ rest)
  = flush (Some w) (flush (Some "--title") (lex Unquoted None rest)).
Proof. reflexivity. Qed.

Lemma lex_body_flag (w rest : string) :
  lex Unquoted (Some w) (" --body " ++ rest)
  = flush (Some w) (flush (Some "--body") (lex Unquoted None rest)).
Proof. reflexivity. Qed.

Lemma lex_label_flag (w rest : string) :
  lex Unquoted (Some w) (" --label " ++ rest)
  = flush (Some w) (flush (Some "--label") (lex Unquoted None rest)).
Proof. reflexivity. Qed.

Lemma words_ghCommand (title formattedBody : string)
  (labels : option (list string)) :
  words (ghCommand title formattedBody labels)
  = Some (ghArgv title formattedBody labels).
Proof.
  unfold words, ghCommand, ghArgv.
  rewrite lex_gh_prefix, lex_escaped_arg, lex_title_flag, lex_escaped_arg,
    lex_body_flag, lex_escaped_arg.
  destruct labels as [[|l ls]|]; cbn [labelSuffix]; try reflexivity.
  rewrite lex_label_flag.
  rewrite <- (append_nil_r (Str.join "," (map escapeShellArg (l :: ls)))).
  destruct ls as [|l' ls].
  - cbn [map Str.join]. rewrite lex_escaped_arg. reflexivity.
  - change (Str.join "," (map escapeShellArg (l :: l' :: ls)))
      with (escapeShellArg l ++ ","
            ++ Str.join "," (map escapeShellArg (l' :: ls))).
    rewrite append_assoc, lex_escaped_arg.
    change (lex Unquoted (Some l)
              (("," ++ Str.join "," (map escapeShellArg (l' :: ls))) ++ ""))
      with (lex Unquoted (Some (Str.snoc l ","))
              (Str.join "," (map escapeShellArg (l' :: ls)) ++ "")).
    rewrite lex_joined_labels. unfold Str.snoc.
    rewrite append_assoc. reflexivity.
Qed.

End ShellRoundTrip.

(** C7. For every string [s], also one with single quotes, semicolons,
    blanks or other shell metacharacters, the shell reads
    [escapeShellArg s] as exactly one argument word, equal to [s]; appended
    to a word in progress it adds exactly [s]; and the whole [gh] command
    is read as the fixed argument vector with the title and the body
    unchanged in their places: no argument or command is added. *)
Theorem escapeShellArg_round_trip (s : string) :
  Sh.words (escapeShellArg s) = Some [s]
  /\ (forall w rest,
         Sh.lex Sh.Unquoted (Some w) (escapeShellArg s ++ rest)
         = Sh.lex Sh.Unquoted (Some (w ++ s)) rest)
  /\ (forall body labels,
         Sh.words (ghCommand s body labels) = Some (ghArgv s body labels))
  /\ (forall title labels,
         Sh.words (ghCommand title s labels) = Some (ghArgv title s labels)).
Proof.
  repeat split.
  - unfold Sh.words.
    rewrite <- (append_nil_r (escapeShellArg s)), lex_escaped_arg.
    reflexivity.
  - intros. now rewrite lex_escaped_arg.
  - intros. apply words_ghCommand.
  - intros. apply words_ghCommand.
Qed.

(** * The scan of the candidate directories *)

Section Scan.

Import Locator.
Local Open Scope list_scope.

Variable h : Host.

Lemma Math_max_ge_first (xs : list Z) (x : Z) : x <= Math_max x xs.
Proof.
  unfold Math_max. revert x.
  induction xs as [|y xs IH]; intro x; simpl; [lia|].
  specialize (IH (Z.max x y)). lia.
Qed.

Lemma Math_max_ge (xs : list Z) (x y : Z) :
  In y (x :: xs) -> y <= Math_max x xs.
Proof.
  unfold Math_max. revert x.
  induction xs as [|z xs IH]; intros x [->|Hin]; simpl; try lia.
  - contradiction.
  - pose proof (Math_max_ge_first xs (Z.max y z)) as G.
    unfold Math_max in G. lia.
  - destruct Hin as [->|Hin].
    + pose proof (Math_max_ge_first xs (Z.max x y)) as G.
      unfold Math_max in G. lia.
    + apply IH. now right.
Qed.

Lemma Math_max_in (xs : list Z) (x : Z) : In (Math_max x xs) (x :: xs).
Proof.
  unfold Math_max. revert x.
  induction xs as [|z xs IH]; intro x; simpl; [now left|].
  destruct (IH (Z.max x z)) as [E|Hin].
  - destruct (Z.max_spec x z) as [[_ M]|[_ M]]; rewrite M in *.
    + right; left; exact E.
    + left; exact E.
  - right; right; exact Hin.
Qed.

Lemma digitValue_nonneg (c : ascii) :
  Str.isDigit c = true -> 0 <= digitValue c.
Proof.
  unfold Str.isDigit, digitValue. intro D.
  apply andb_true_iff in D. destruct D as [D _].
  apply Nat.leb_le in D. lia.
Qed.

Lemma digitsValue_nonneg (s : string) :
  isNumericName s = true -> 0 <= digitsValue s.
Proof.
  unfold isNumericName, digitsValue. intro N.
  apply andb_true_iff in N. destruct N as [_ N].
  assert (G : forall acc, 0 <= acc ->
            0 <= fold_left (fun acc c => 10 * acc + digitValue c)
                   (list_ascii_of_string s) acc).
  { induction s as [|c s IH]; intros acc A;
      cbn [fold_left list_ascii_of_string]; [exact A|].
    cbn [Str.forallb] in N. apply andb_true_iff in N. destruct N as [D N].
    apply IH; [exact N|]. pose proof (digitValue_nonneg c D). lia. }
  apply G. lia.
Qed.

(** Below [2 ^ 53] the double is the integer itself. *)
Lemma roundDouble_small (z : Z) : z < safeLimit -> roundDouble z = z.
Proof.
  intro L. unfold roundDouble.
  destruct (Z.ltb_spec z safeLimit); [reflexivity|lia].
Qed.

Lemma roundDouble_nonneg (z : Z) : 0 <= z -> 0 <= roundDouble z.
Proof.
  intro P. unfold roundDouble.
  destruct (Z.ltb_spec z safeLimit); [exact P|].
  set (e := Z.log2 z - 52).
  pose proof (Z.pow_nonneg 2 e ltac:(lia)) as E.
  pose proof (Z_div_nonneg_nonneg z (2 ^ e) P E) as Q.
  assert (I : 0 <= Infinity) by (apply Z.pow_nonneg; lia).
  apply Z.min_glb; [|exact I].
  destruct ((2 ^ (e - 1) <? z mod 2 ^ e)
            || (z mod 2 ^ e =? 2 ^ (e - 1)) && Z.odd (z / 2 ^ e)); nia.
Qed.

Lemma parseInt10_nonneg (s : string) :
  isNumericName s = true -> 0 <= parseInt10 s.
Proof.
  intro N. apply roundDouble_nonneg. now apply digitsValue_nonneg.
Qed.

(** A name that denotes an integer below [2 ^ 53] is read exactly. *)
Lemma parseInt10_exact (s : string) :
  digitsValue s < safeLimit -> parseInt10 s = digitsValue s.
Proof. apply roundDouble_small. Qed.

(** The record numbers of a directory are the numbers of its listing. *)
Lemma numericDirs_spec (basePath : string) (ns : list Z) :
  numericDirs h basePath = Some ns ->
  forall n, In n ns <-> hasRecord h basePath n.
Proof.
  unfold numericDirs, hasRecord.
  destruct (fs_stat h basePath); [|discriminate].
  destruct (fs_readdir h basePath) as [entries|]; [|discriminate].
  intros [= <-] n. rewrite in_map_iff. split.
  - intros (e & P & Hin). apply filter_In in Hin. destruct Hin as [Hin K].
    apply andb_true_iff in K. destruct K as [K1 K2].
    split; [reflexivity|]. now exists entries, e.
  - intros (_ & entries' & e & [= <-] & Hin & K1 & K2 & P).
    exists e. split; [exact P|]. apply filter_In. split; [exact Hin|].
    now rewrite K1, K2.
Qed.

Lemma hasRecord_numericDirs (basePath : string) (n : Z) :
  hasRecord h basePath n ->
  exists ns, numericDirs h basePath = Some ns /\ In n ns.
Proof.
  intros R. pose proof R as (S & entries & e & RD & _).
  unfold numericDirs in *. rewrite S, RD. eexists. split; [reflexivity|].
  eapply numericDirs_spec; [|exact R].
  unfold numericDirs. now rewrite S, RD.
Qed.

(** The highest record of a directory is one of its records and bounds
    them all. *)
Lemma dirHighest_spec (basePath : string) (m : Z) :
  dirHighest h basePath = Some m ->
  hasRecord h basePath m /\
  forall n, hasRecord h basePath n -> n <= m.
Proof.
  unfold dirHighest.
  destruct (numericDirs h basePath) as [[|x xs]|] eqn:N; try discriminate.
  intros [= <-]. split.
  - apply (numericDirs_spec _ _ N). apply Math_max_in.
  - intros n R. apply (numericDirs_spec _ _ N) in R.
    now apply Math_max_ge.
Qed.

Lemma hasRecord_dirHighest (basePath : string) (n : Z) :
  hasRecord h basePath n ->
  exists m, dirHighest h basePath = Some m /\ n <= m.
Proof.
  intros R. destruct (hasRecord_numericDirs _ _ R) as (ns & N & Hin).
  unfold dirHighest. rewrite N. destruct ns as [|x xs]; [contradiction|].
  eexists. split; [reflexivity|]. now apply Math_max_ge.
Qed.

Lemma hasRecord_nonneg (basePath : string) (n : Z) :
  hasRecord h basePath n -> 0 <= n.
Proof.
  intros (_ & entries & e & _ & _ & _ & K & <-).
  now apply parseInt10_nonneg.
Qed.

(** One iteration, read through [dirHighest]. *)
Lemma scanStep_dirHighest (st : ScanState) (basePath : string) :
  scanStep h st basePath
  = match dirHighest h basePath with
    | Some m => if m >? fst st then (m, Some basePath) else st
    | None => st
    end.
Proof.
  unfold scanStep, dirHighest.
  now destruct (numericDirs h basePath) as [[|x xs]|].
Qed.

(** The loop invariant, stated on the whole run from any state: either no
    directory beat the start, or the result is the first directory that
    reaches the highest number. *)
Lemma scan_from (paths : list string) (a : Z) (f : option string) :
  let st := fold_left (scanStep h) paths (a, f) in
  (st = (a, f) /\
   forall q m, In q paths -> dirHighest h q = Some m -> m <= a)
  \/
  (exists pre p post,
      paths = pre ++ p :: post /\
      st = (fst st, Some p) /\ dirHighest h p = Some (fst st) /\
      a < fst st /\
      (forall q m, In q pre -> dirHighest h q = Some m -> m < fst st) /\
      (forall q m, In q post -> dirHighest h q = Some m -> m <= fst st)).
Proof.
  revert a f. induction paths as [|p rest IH]; intros a f; cbn zeta.
  - left. split; [reflexivity|]. intros q m [].
  - cbn [fold_left]. rewrite scanStep_dirHighest. cbn [fst].
    destruct (dirHighest h p) as [m|] eqn:D.
    + destruct (m >? a) eqn:G.
      * apply Z.gtb_lt in G.
        destruct (IH m (Some p)) as [[E B]|(pre & p' & post & P & E & D' & L & Bpre & Bpost)].
        -- right. exists [], p, rest. rewrite E. cbn [fst].
           repeat split; try assumption; try reflexivity.
           intros q k [].
        -- right. exists (p :: pre), p', post.
           repeat split; try assumption.
           ++ now rewrite P.
           ++ lia.
           ++ intros q k [<-|Hin] Dq.
              ** rewrite D in Dq. injection Dq as <-. exact L.
              ** now apply (Bpre q).
      * assert (m <= a) as G'.
        { destruct (Z.gtb_spec m a); [discriminate|lia]. }
        destruct (IH a f) as [[E B]|(pre & p' & post & P & E & D' & L & Bpre & Bpost)].
        -- left. split; [exact E|].
           intros q k [<-|Hin] Dq.
           ++ rewrite D in Dq. injection Dq as <-. exact G'.
           ++ now apply (B q).
        -- right. exists (p :: pre), p', post.
           repeat split; try assumption.
           ++ now rewrite P.
           ++ intros q k [<-|Hin] Dq.
              ** rewrite D in Dq. injection Dq as <-. lia.
              ** now apply (Bpre q).
    + destruct (IH a f) as [[E B]|(pre & p' & post & P & E & D' & L & Bpre & Bpost)].
      * left. split; [exact E|].
        intros q k [<-|Hin] Dq; [congruence|now apply (B q)].
      * right. exists (p :: pre), p', post.
        repeat split; try assumption.
        -- now rewrite P.
        -- intros q k [<-|Hin] Dq; [congruence|now apply (Bpre q)].
Qed.

(** When some candidate holds a record, the scan ends on the first
    directory that reaches the overall highest number. *)
Lemma scan_first_highest (paths : list string) :
  (exists q k, In q paths /\ hasRecord h q k) ->
  exists n pre p post,
    paths = pre ++ p :: post /\ scan h paths = (n, Some p) /\
    dirHighest h p = Some n /\
    (forall q m, In q pre -> dirHighest h q = Some m -> m < n) /\
    (forall q m, In q post -> dirHighest h q = Some m -> m <= n).
Proof.
  intros (q & k & Hin & R).
  pose proof (hasRecord_nonneg _ _ R) as K0.
  destruct (hasRecord_dirHighest _ _ R) as (m & D & Km).
  unfold scan, scanInit.
  destruct (scan_from paths (-1) None) as [[_ B]|(pre & p & post & P & E & D' & _ & Bpre & Bpost)].
  - specialize (B q m Hin D). lia.
  - exists (fst (fold_left (scanStep h) paths (-1, None))), pre, p, post.
    now repeat split.
Qed.


End Scan.

Section LocatorChoice.

Import Locator.
Local Open Scope list_scope.

Variable h : Host.




Lemma getApiMetadata_selected (paths : list string) (n : Z) (p : string) :
  possiblePaths h = Ok paths -> scan h paths = (n, Some p) ->
  getApiMetadata h = readRecord h p n.
Proof. intros P S. unfold getApiMetadata. now rewrite P, S. Qed.

(** The candidates follow the order of [ideApps]: the same segments for
    the three of them, but for the name of the application. *)
Lemma possiblePaths_order (paths : list string) :
  possiblePaths h = Ok paths ->
  exists before : list string,
    paths
    = map (fun app =>
             path_join h
               (before ++ [app; "User"; "globalStorage";
                           "saoudrizwan.claude-dev"; "tasks"]%string))
        ["Code"; "Cursor"; "Windsurf"]%string.
Proof.
  unfold possiblePaths.
  destruct (String.eqb (os_platform h) "win32").
  - destruct (env_APPDATA h) as [appData|]; [|discriminate].
    destruct (truthy appData); [|discriminate].
    intros [= <-]. now exists [appData].
  - destruct (String.eqb (os_platform h) "darwin").
    + intros [= <-].
      now exists [os_homedir h; "Library"; "Application Support"]%string.
    + destruct (String.eqb (os_platform h) "linux"); [|discriminate].
      intros [= <-]. now exists [os_homedir h; ".config"]%string.
Qed.

Lemma readRecord_label (p : string) (n : Z) (md : ApiMetadata) :
  readRecord h p n = Ok md ->
  ideUsed md = ideOfPath ideNames p /\
  exists content,
    fs_readFile h (path_join h [p; toString n; "task_metadata.json"%string])
    = Ok content.
Proof.
  unfold readRecord, metadataFilePath.
  destruct (readLatest h _) as [[pr mo]|] eqn:RL; [|discriminate].
  intros [= <-]. split; [reflexivity|].
  unfold readLatest in RL.
  destruct (fs_readFile h _) as [content|]; [|discriminate].
  now exists content.
Qed.

(** The label goes to the first of Code, Cursor, Windsurf that stands
    somewhere in the path. *)
Lemma ideOfPath_holds (p : string) :
  let holds := fun ideName => exists a b, p = (a ++ ideName ++ b)%string in
  (holds "Code"%string -> ideOfPath ideNames p = "Code"%string)
  /\ (~ holds "Code"%string -> holds "Cursor"%string ->
      ideOfPath ideNames p = "Cursor"%string)
  /\ (~ holds "Code"%string -> ~ holds "Cursor"%string ->
      holds "Windsurf"%string -> ideOfPath ideNames p = "Windsurf"%string)
  /\ (~ holds "Code"%string -> ~ holds "Cursor"%string ->
      ~ holds "Windsurf"%string -> ideOfPath ideNames p = "Unknown"%string).
Proof.
  cbn zeta. unfold ideNames. cbn [ideOfPath].
  pose proof (includes_iff "Code" p) as C.
  pose proof (includes_iff "Cursor" p) as U.
  pose proof (includes_iff "Windsurf" p) as W.
  destruct (Str.includes "Code" p);
    [|destruct (Str.includes "Cursor" p);
      [|destruct (Str.includes "Windsurf" p)]];
    intuition (discriminate || auto).
Qed.

End LocatorChoice.

(** C3 as stated does not hold.  [parseInt] returns a double: the names
    9007199254740992 and 9007199254740993 are both read as [2 ^ 53].  With
    the first as the only record of Code and the second as a record of
    Cursor, the highest name over all candidates is the one of Cursor, and
    the locator stays on Code, whose number Cursor does not exceed. *)
Lemma highest_name_beyond_doubles_not_selected :
  Locator.possiblePaths beyondDoubles
  = Ok [Sample.tasks "Code"; Sample.tasks "Cursor"; Sample.tasks "Windsurf"]
  /\ Locator.scan beyondDoubles
       [Sample.tasks "Code"; Sample.tasks "Cursor"; Sample.tasks "Windsurf"]
     = (9007199254740992, Some (Sample.tasks "Code"))
  /\ Locator.hasName beyondDoubles (Sample.tasks "Cursor") "9007199254740993"
  /\ digitsValue "9007199254740993" = 9007199254740993
  /\ parseInt10 "9007199254740993" = 9007199254740992
  /\ forall s, Locator.hasName beyondDoubles (Sample.tasks "Code") s ->
               digitsValue s = 9007199254740992.
Proof.
  split; [reflexivity|]. split; [vm_compute; reflexivity|].
  split; [|split; [reflexivity|split; [vm_compute; reflexivity|]]].
  - split; [reflexivity|].
    exists [Sample.dir "9007199254740993"], (Sample.dir "9007199254740993").
    repeat split. now left.
  - intros s (_ & entries & e & RD & Hin & _ & _ & <-).
    vm_compute in RD. injection RD as <-.
    destruct Hin as [<-|[]]. reflexivity.
Qed.



(** C10. When the directory at position [i] of the candidate list reaches
    the overall highest record number and no earlier directory does, the
    scan selects it, whatever later directories hold (the same number
    included): the running maximum is replaced only on a strictly greater
    number.  The candidates are the paths of Code, Cursor and Windsurf, in
    this order, which differ in the name of the application only.  The
    label is the first of Code, Cursor, Windsurf that stands in the path
    of the selected directory, and the sidecar that was read is the one
    of the selected number below the selected directory. *)
Theorem tie_selects_earliest (h : Host) (paths : list string) (i : nat)
  (p : string) (n : Z) :
  Locator.possiblePaths h = Ok paths ->
  nth_error paths i = Some p ->
  Locator.dirHighest h p = Some n ->
  (forall q m, In q paths -> Locator.dirHighest h q = Some m -> m <= n) ->
  (forall k q, (k < i)%nat -> nth_error paths k = Some q ->
               Locator.dirHighest h q <> Some n) ->
  (exists before : list string,
      paths
      = map (fun app =>
               path_join h
                 (before ++ [app; "User"; "globalStorage";
                             "saoudrizwan.claude-dev"; "tasks"])%list)
          ["Code"; "Cursor"; "Windsurf"]) /\
  Locator.scan h paths = (n, Some p) /\
  Locator.getApiMetadata h = Locator.readRecord h p n /\
  (forall md, Locator.getApiMetadata h = Ok md ->
     let holds := fun ideName => exists a b, p = a ++ ideName ++ b in
     (holds "Code" -> Locator.ideUsed md = "Code")
     /\ (~ holds "Code" -> holds "Cursor" -> Locator.ideUsed md = "Cursor")
     /\ (~ holds "Code" -> ~ holds "Cursor" -> holds "Windsurf" ->
         Locator.ideUsed md = "Windsurf")
     /\ (~ holds "Code" -> ~ holds "Cursor" -> ~ holds "Windsurf" ->
         Locator.ideUsed md = "Unknown")
     /\ exists content,
          fs_readFile h (path_join h [p; toString n; "task_metadata.json"])
          = Ok content).
Proof.
  intros PP Hp D Top Early.
  assert (S : Locator.scan h paths = (n, Some p)).
  { destruct (dirHighest_spec h p n D) as [R _].
    destruct (scan_first_highest h paths) as (n' & pre & p' & post & P & S & D' & Bpre & Bpost).
    { exists p, n. split; [now apply nth_error_In with i|exact R]. }
    assert (Hin' : In p' paths).
    { rewrite P. apply in_or_app. right. now left. }
    pose proof (Top p' n' Hin' D') as U.
    assert (L : n <= n').
    { pose proof (nth_error_In _ _ Hp) as Hin. rewrite P in Hin.
      apply in_app_or in Hin. destruct Hin as [Hin|[<-|Hin]].
      - specialize (Bpre p n Hin D). lia.
      - rewrite D in D'. injection D' as <-. lia.
      - exact (Bpost p n Hin D). }
    assert (n' = n) by lia. subst n'.
    destruct (Nat.lt_trichotomy i (length pre)) as [Lt|[Eq|Gt]].
    - exfalso. rewrite P, nth_error_app1 in Hp by exact Lt.
      apply nth_error_In in Hp. specialize (Bpre p n Hp D). lia.
    - subst i. rewrite P, nth_error_app2, Nat.sub_diag in Hp by lia.
      cbn in Hp. injection Hp as <-. exact S.
    - exfalso. apply (Early (length pre) p' Gt); [|exact D'].
      rewrite P, nth_error_app2, Nat.sub_diag by lia. reflexivity. }
  split; [|split; [|split]].
  - exact (possiblePaths_order h paths PP).
  - exact S.
  - now apply getApiMetadata_selected with paths.
  - intros md G.
    rewrite (getApiMetadata_selected h paths n p PP S) in G.
    destruct (readRecord_label h p n md G) as [L F]. cbn zeta.
    rewrite L.
    destruct (ideOfPath_holds p) as (A & B & C & U).
    repeat split; assumption.
Qed.

Lemma tie_selects_earliest_witness :
  Locator.dirHighest Sample.linux (Sample.tasks "Code") = Some 1700000000005
  /\ Locator.dirHighest Sample.linux (Sample.tasks "Cursor")
     = Some 1700000000005
  /\ Locator.scan Sample.linux
       [Sample.tasks "Code"; Sample.tasks "Cursor"; Sample.tasks "Windsurf"]
     = (1700000000005, Some (Sample.tasks "Code")).
Proof.
  split; [reflexivity|]. split; [reflexivity|].
  apply (tie_selects_earliest Sample.linux
           [Sample.tasks "Code"; Sample.tasks "Cursor";
            Sample.tasks "Windsurf"] 0 (Sample.tasks "Code") 1700000000005).
  - reflexivity.
  - reflexivity.
  - reflexivity.
  - intros q m [<-|[<-|[<-|[]]]] D; vm_compute in D;
      try discriminate; injection D as <-; lia.
  - intros k q L. lia.
Defined.

(** * The latest usage entry *)

Section Latest.

Import Locator.
Local Open Scope list_scope.

Variable h : Host.

Lemma truthy_true_iff (s : string) : truthy s = true <-> s <> ""%string.
Proof.
  unfold truthy. rewrite negb_true_iff. apply String.eqb_neq.
Qed.

Lemma truthy_false_iff (s : string) : truthy s = false <-> s = ""%string.
Proof.
  unfold truthy. rewrite negb_false_iff. apply String.eqb_eq.
Qed.

(** A property that is there can be read. *)
Lemma readProp_getProp (v x : JsValue) (k : string) :
  Json.getProp v k = Some x -> Json.readProp v k = Ok (Some x).
Proof. destruct v; try discriminate. now intros <-. Qed.


(** An entry with a number under [ts] is an object. *)
Lemma timestamp_object (e : JsValue) (t : Z) :
  timestamp e = Some t ->
  Json.truthyValue e = true /\ Json.getProp e "ts" = Some (JNumber t).
Proof.
  destruct e as [| | | | |fields]; try discriminate.
  cbn [timestamp Json.getProp Json.truthyValue].
  destruct (Json.assoc "ts" fields) as [[| |n| | |]|]; try discriminate.
  intros [= ->]. now split.
Qed.

(** Between two entries with numbers under [ts] the callback keeps the
    held one unless the new one is strictly later. *)
Lemma later_stamped (a c : JsValue) (ta tc : Z) :
  timestamp a = Some ta -> timestamp c = Some tc ->
  later h a c = Ok (if tc >? ta then c else a).
Proof.
  intros A C.
  destruct (timestamp_object a ta A) as (Ta & Ga).
  destruct (timestamp_object c tc C) as (_ & Gc).
  unfold later.
  rewrite Ta, (readProp_getProp c (JNumber tc) "ts" Gc), Ga.
  cbn. now destruct (tc >? ta).
Qed.


Lemma latestEntry_cons (u : JsValue) (usage : list JsValue) :
  latestEntry h (u :: usage) = reduce h usage u.
Proof. reflexivity. Qed.









End Latest.

(** The list of the specification: whatever else the first and the third
    entry hold, the entry stamped 5 is the latest. *)
Example latestEntry_1_5_3 (h : Host) (a b c : JsValue) :
  Locator.timestamp a = Some 1 -> Locator.timestamp b = Some 5 ->
  Locator.timestamp c = Some 3 ->
  Locator.latestEntry h [a; b; c] = Ok b.
Proof.
  intros A B C. rewrite latestEntry_cons. cbn [Locator.reduce].
  rewrite (later_stamped h a b 1 5 A B). cbn [Z.gtb Z.compare Pos.compare
    Pos.compare_cont].
  now rewrite (later_stamped h b c 5 3 B C).
Qed.

(** C4 as stated does not hold.  The reduction compares [current.ts] with
    [latest.ts] and nothing says that an entry holds a timestamp: no
    number is greater than [undefined], so that a first entry without
    [ts] stays selected.  Here the only entry with a timestamp, 7, carries
    the identifiers P and M, and the locator returns X and Y. *)
Lemma entry_without_timestamp_returned :
  Locator.getApiMetadata
    (Sample.withDocument Sample.linux (Sample.document withoutTimestamp))
  = Ok {| Locator.apiProvider := JString "X";
          Locator.modelName := JString "Y";
          Locator.ideUsed := "Code" |}
  /\ In (Sample.entry 7 (Some "P") (Some "M")) withoutTimestamp
  /\ Locator.timestamp (Sample.entry 7 (Some "P") (Some "M")) = Some 7
  /\ forall e t, In e withoutTimestamp -> Locator.timestamp e = Some t ->
                 e = Sample.entry 7 (Some "P") (Some "M").
Proof.
  split; [vm_compute; reflexivity|].
  split; [right; left; reflexivity|]. split; [reflexivity|].
  intros e t [<-|[<-|[]]] T; [discriminate T|reflexivity].
Qed.



(** * When the locator fails *)

Section LocatorFailure.

Import Locator.
Local Open Scope list_scope.

Variable h : Host.

Lemma scan_none_no_record (paths : list string) (n : Z) :
  scan h paths = (n, None) ->
  forall p, In p paths -> dirHighest h p = None.
Proof.
  intros S p Hin. destruct (dirHighest h p) as [m|] eqn:D; [|reflexivity].
  destruct (dirHighest_spec h p m D) as [R _].
  destruct (scan_first_highest h paths) as (n' & pre & p' & post & _ & S' & _).
  { now exists p, m. }
  congruence.
Qed.

















End LocatorFailure.



(** * The request handler *)

Section Handler.

Local Open Scope list_scope.

Variable h : Host.

Lemma strings_are_strings (ls : list string) :
  forallb (fun l => isString (Some l)) (map JString ls) = true.
Proof. induction ls as [|l ls IH]; [reflexivity|exact IH]. Qed.

Lemma stringOf_JString (ls : list string) :
  map (fun l => stringOf (Some l)) (map JString ls) = ls.
Proof.
  induction ls as [|l ls IH]; [reflexivity|]. cbn [map].
  rewrite IH. reflexivity.
Qed.

(** An array of strings is the image of a list of strings. *)
Lemma array_of_strings (items : list JsValue) :
  forallb (fun l => isString (Some l)) items = true ->
  exists ls, items = map JString ls.
Proof.
  induction items as [|v items IH]; intro F.
  - now exists [].
  - cbn [forallb] in F. apply andb_true_iff in F. destruct F as [V F].
    destruct (IH F) as (ls & ->).
    destruct v; try discriminate. now exists (s :: ls).
Qed.

Lemma carries_valid (args : JsValue) (title description : string)
  (labels : option (list string)) :
  carries args title description labels ->
  isValidReportArgs (Some args) = true /\
  stringOf (Json.getProp args "title") = title /\
  stringOf (Json.getProp args "description") = description /\
  labelsOf (Json.getProp args "labels") = labels.
Proof.
  intros (T & D & L).
  destruct args; try discriminate T.
  unfold isValidReportArgs. rewrite T, D, L. cbn [isString stringOf andb].
  destruct labels as [ls|]; cbn [option_map labelsOf].
  - rewrite strings_are_strings, stringOf_JString. now repeat split.
  - now repeat split.
Qed.

Lemma knownTool_dispatch (toolName : string) :
  knownTool toolName ->
  negb (String.eqb toolName "report_cline_issue")
  && negb (String.eqb toolName "preview_cline_issue") = false.
Proof. now intros [-> | ->]. Qed.

Lemma callTool_handles (request : Request) (args : JsValue)
  (title description : string) (labels : option (list string)) :
  knownTool (params_name request) ->
  params_arguments request = Some args ->
  carries args title description labels ->
  callTool h request
  = handleIssue h (params_name request) title description labels.
Proof.
  intros K A C.
  destruct (carries_valid _ _ _ _ C) as (V & T & D & L).
  unfold callTool. rewrite (knownTool_dispatch _ K), A, V, T, D, L.
  reflexivity.
Qed.

(** The handler once the locator has succeeded: the value and the
    processes of the two branches. *)
Lemma handleIssue_located (toolName title description : string)
  (labels : option (list string)) (md : Locator.ApiMetadata) :
  Locator.getApiMetadata h = Ok md ->
  printable md = true ->
  value (handleIssue h toolName title description labels)
  = (if String.eqb toolName "preview_cline_issue"
     then success (Json.stringify2
                     (previewObject title (bodyOn h md description) labels))
     else match exec h (ghCommand title (bodyOn h md description) labels) with
          | Completed ghStdout ghStderr => ghResult ghStdout ghStderr
          | Rejected stderr stdout message =>
              ghRejected stderr stdout message
          end)
  /\ spawned (handleIssue h toolName title description labels)
     = spawned (detectClineVersion h)
       ++ (if String.eqb toolName "preview_cline_issue" then []
           else [ghCommand title (bodyOn h md description) labels]).
Proof.
  intros G T. unfold handleIssue. rewrite G. unfold bodyOn.
  apply andb_true_iff in T. destruct T as [Tp Tm].
  unfold Json.text. rewrite Tp, Tm.
  destruct (String.eqb toolName "preview_cline_issue").
  - split; reflexivity.
  - split.
    + unfold value, bind, execAsync. cbn [fst snd].
      now destruct (exec h _).
    + unfold spawned, bind, execAsync. cbn [fst snd].
      now destruct (exec h _).
Qed.

(** The handler when an identifier has no text: the template literal
    throws behind the probes, and the outer catch answers with the
    message of the [TypeError]; nothing is submitted. *)
Lemma handleIssue_unprintable (toolName title description : string)
  (labels : option (list string)) (md : Locator.ApiMetadata) :
  Locator.getApiMetadata h = Ok md ->
  printable md = false ->
  value (handleIssue h toolName title description labels)
  = failure "Command execution failed: Cannot convert object to primitive value"
  /\ spawned (handleIssue h toolName title description labels)
     = spawned (detectClineVersion h).
Proof.
  intros G T. unfold handleIssue. rewrite G.
  apply andb_false_iff in T. unfold Json.text.
  unfold value, spawned, bind. cbn [fst snd].
  destruct (Json.hasText (Locator.apiProvider md)),
    (Json.hasText (Locator.modelName md));
    try (destruct T; discriminate);
    (split; [reflexivity|apply app_nil_r]).
Qed.

(** The probing loop, on any list of IDEs: it runs the probes in order
    and stops behind the first that yields a version. *)
Lemma probeIdes_spec (searchCmd : string) (ideList : list string) :
  let probe := fun ide => versionCommand ide searchCmd in
  (value (probeIdes h searchCmd ideList) = "unknown"%string /\
   spawned (probeIdes h searchCmd ideList) = map probe ideList /\
   Forall (fun ide => versionFrom (exec h (probe ide)) = None) ideList)
  \/
  (exists pre ide post v,
      ideList = pre ++ ide :: post /\
      Forall (fun ide => versionFrom (exec h (probe ide)) = None) pre /\
      versionFrom (exec h (probe ide)) = Some v /\
      value (probeIdes h searchCmd ideList) = v /\
      spawned (probeIdes h searchCmd ideList) = map probe (pre ++ [ide])).
Proof.
  cbn zeta. induction ideList as [|ide rest IH].
  - left. repeat split. constructor.
  - cbn [probeIdes]. unfold bind, execAsync, value, spawned in *.
    cbn [fst snd].
    destruct (versionFrom (exec h (versionCommand ide searchCmd)))
      as [v|] eqn:V.
    + right. exists [], ide, rest, v.
      unfold versionFrom in V.
      destruct (exec h (versionCommand ide searchCmd)); [|discriminate].
      rewrite V. repeat split; [constructor|exact V].
    + assert (E : (match exec h (versionCommand ide searchCmd) with
                   | Completed stdout _ =>
                       match matchVersion stdout with
                       | Some v => ret v
                       | None => probeIdes h searchCmd rest
                       end
                   | Rejected _ _ _ => probeIdes h searchCmd rest
                   end) = probeIdes h searchCmd rest).
      { unfold versionFrom in V.
        destruct (exec h (versionCommand ide searchCmd)); [|reflexivity].
        now rewrite V. }
      rewrite E.
      destruct IH as [(U & S & F)|(pre & ide' & post & v & P & F & V' & U & S)].
      * left. repeat split.
        -- exact U.
        -- cbn [map]. now rewrite S.
        -- now constructor.
      * right. exists (ide :: pre), ide', post, v. repeat split.
        -- now rewrite P.
        -- now constructor.
        -- exact V'.
        -- exact U.
        -- cbn [map app]. now rewrite S.
Qed.


End Handler.

(** * The version pattern *)

Section VersionPattern.

(** The greedy group: all its characters are in the class, and what
    follows it does not start with one. *)
Lemma takeWhile_split (f : ascii -> bool) (s : string) :
  exists post,
    s = Str.takeWhile f s ++ post /\
    Str.forallb f (Str.takeWhile f s) = true /\
    (post = "" \/ exists c post', post = String c post' /\ f c = false).
Proof.
  induction s as [|c s (post & E & F & P)].
  - exists "". repeat split. now left.
  - cbn [Str.takeWhile]. destruct (f c) eqn:Fc.
    + exists post. cbn. rewrite Fc, F. repeat split; [now rewrite <- E|exact P].
    + exists (String c s). repeat split. right. now exists c, s.
Qed.

(** What [matchVersion] returns stands in the output behind the tag, is
    not empty, is made of digits and dots, and is not followed by one. *)
Lemma matchVersion_sound (stdout v : string) :
  matchVersion stdout = Some v ->
  exists pre post,
    stdout = pre ++ versionTag ++ v ++ post /\
    v <> "" /\ Str.forallb isVersionChar v = true /\
    (post = "" \/
     exists c post', post = String c post' /\ isVersionChar c = false).
Proof.
  revert v. induction stdout as [|c rest IH]; intro v; [discriminate|].
  cbn [matchVersion].
  set (group := Str.takeWhile isVersionChar
                  (Str.drop (String.length versionTag) (String c rest))).
  destruct (Str.startsWith versionTag (String c rest)) eqn:T; cbn [andb].
  - destruct (truthy group) eqn:G.
    + intro M. assert (Hv : group = v) by congruence. clear M.
      apply startsWith_split in T.
      destruct (takeWhile_split isVersionChar
                  (Str.drop (String.length versionTag) (String c rest)))
        as (post & E & F & P).
      fold group in E, F. rewrite Hv in *.
      exists "", post. repeat split.
      * cbn [append]. rewrite <- E. exact T.
      * now apply truthy_true_iff.
      * exact F.
      * exact P.
    + intro M. destruct (IH v M) as (pre & post & E & R).
      exists (String c pre), post. split; [|exact R]. cbn [append].
      now rewrite <- E.
  - intro M. destruct (IH v M) as (pre & post & E & R).
    exists (String c pre), post. split; [|exact R]. cbn [append].
    now rewrite <- E.
Qed.

(** An output that holds the tag followed by a digit or a dot matches. *)
Lemma matchVersion_complete (pre post : string) (c : ascii) :
  isVersionChar c = true ->
  exists v, matchVersion (pre ++ versionTag ++ String c post) = Some v.
Proof.
  intro C. induction pre as [|a pre (v & IH)].
  - destruct (startsWith_append versionTag (String c post)) as [T D].
    change ("" ++ versionTag ++ String c post)
      with (String "s" (Str.drop 1 (versionTag ++ String c post))).
    cbn [matchVersion].
    change (String "s" (Str.drop 1 (versionTag ++ String c post)))
      with (versionTag ++ String c post).
    rewrite T, D. cbn [Str.takeWhile]. rewrite C. cbn. eauto.
  - cbn [append matchVersion].
    destruct (Str.startsWith versionTag (String a (pre ++ versionTag ++ String c post))
              && truthy _); eauto.
Qed.

End VersionPattern.

Section Probes.

Local Open Scope list_scope.

Variable h : Host.



End Probes.




(** C6. When the locator fails, whatever the reason, a preview request and
    a report request with valid arguments both return the response flagged
    as an error whose text embeds the message of the locator, and no
    process at all is started: neither a probe nor [gh]. *)
Theorem metadata_failure_short_circuits (h : Host) (request : Request)
  (errorMessage : string) :
  knownTool (params_name request) ->
  isValidReportArgs (params_arguments request) = true ->
  Locator.getApiMetadata h = Err errorMessage ->
  callTool h request
  = (Return
       {| text := "Error retrieving API metadata: " ++ errorMessage
                  ++ ". Please try again or provide apiProvider and modelName manually.";
          isError := true |},
     []).
Proof.
  intros K V G. unfold callTool.
  rewrite (knownTool_dispatch _ K), V. cbn [negb].
  unfold handleIssue. now rewrite G.
Qed.

Lemma metadata_failure_short_circuits_witness :
  callTool (Sample.withPlatform Sample.linux "freebsd")
    (Sample.report "T" "D" None)
  = (Return
       {| text := "Error retrieving API metadata: Unsupported operating system: freebsd. Please try again or provide apiProvider and modelName manually.";
          isError := true |},
     []).
Proof.
  apply (metadata_failure_short_circuits
           (Sample.withPlatform Sample.linux "freebsd")
           (Sample.report "T" "D" None)
           "Unsupported operating system: freebsd").
  - right. reflexivity.
  - reflexivity.
  - reflexivity.
Defined.

(** C5. For every report request with valid arguments on a host where the
    locator succeeds and the [gh] process completes: with empty standard
    output and error-stream text the response is flagged as an error and
    its text holds that error-stream text; with standard output the
    response is that output, unchanged and not flagged, whatever the error
    stream holds; with both streams empty it is the fixed success
    message. *)
Theorem gh_completed_response (h : Host) (request : Request) (args : JsValue)
  (title description : string) (labels : option (list string))
  (md : Locator.ApiMetadata) (ghStdout ghStderr : string) :
  params_name request = "report_cline_issue" ->
  params_arguments request = Some args ->
  carries args title description labels ->
  Locator.getApiMetadata h = Ok md ->
  printable md = true ->
  exec h (ghCommand title (bodyOn h md description) labels)
  = Completed ghStdout ghStderr ->
  (ghStdout = "" -> ghStderr <> "" ->
   value (callTool h request)
   = Return {| text := "GitHub CLI Error: " ++ ghStderr; isError := true |})
  /\ (ghStdout <> "" ->
      value (callTool h request)
      = Return {| text := ghStdout; isError := false |})
  /\ (ghStdout = "" -> ghStderr = "" ->
      value (callTool h request)
      = Return {| text := "Issue reported successfully (no stdout from gh).";
                  isError := false |}).
Proof.
  intros N A C G T E.
  rewrite (callTool_handles h request args title description labels
             (or_intror N) A C).
  destruct (handleIssue_located h (params_name request) title description
              labels md G T) as [V _].
  rewrite V, N, E. cbn [String.eqb Ascii.eqb Bool.eqb]. unfold ghResult.
  split; [|split].
  - intros -> Ne. apply truthy_true_iff in Ne. now rewrite Ne.
  - intros Ne. apply truthy_true_iff in Ne. rewrite Ne.
    now rewrite andb_false_r.
  - now intros -> ->.
Qed.

Lemma gh_completed_response_witness :
  value (callTool (Sample.ghSays "" "GraphQL: Resource not accessible")
           (Sample.report "T" "D" None))
  = Return {| text := "GitHub CLI Error: GraphQL: Resource not accessible";
              isError := true |}.
Proof.
  apply (gh_completed_response
           (Sample.ghSays "" "GraphQL: Resource not accessible")
           (Sample.report "T" "D" None) (Sample.arguments "T" "D" None)
           "T" "D" None
           {| Locator.apiProvider := JString "P";
          Locator.modelName := JString "M";
              Locator.ideUsed := "Code" |}
           "" "GraphQL: Resource not accessible").
  - reflexivity.
  - reflexivity.
  - repeat split.
  - vm_compute. reflexivity.
  - reflexivity.
  - vm_compute. reflexivity.
  - reflexivity.
  - discriminate.
Defined.

Example gh_output_wins :
  value (callTool (Sample.ghSays Sample.issueUrl "Creating issue in cline/cline")
           (Sample.report "T" "D" None))
  = success Sample.issueUrl.
Proof. vm_compute. reflexivity. Qed.

Example gh_silent :
  value (callTool (Sample.ghSays "" "") (Sample.report "T" "D" None))
  = success "Issue reported successfully (no stdout from gh).".
Proof. vm_compute. reflexivity. Qed.

(** C9. For every request with valid arguments on a host where the
    locator succeeds, the detection of the version tries the fixed list
    code, cursor, windsurf in order: either no probe yields a version (it
    failed, or its output does not match the pattern), all three ran and
    the version is the text unknown; or the probes ran up to the first one
    that yields a version and stopped there with that version.  In both
    cases the handler goes on: the preview returns the issue, and the
    report returns what the [gh] step yields; the version only enters the
    body. *)
Theorem version_detection_never_fatal (h : Host) (request : Request)
  (args : JsValue) (title description : string)
  (labels : option (list string)) (md : Locator.ApiMetadata) :
  knownTool (params_name request) ->
  params_arguments request = Some args ->
  carries args title description labels ->
  Locator.getApiMetadata h = Ok md ->
  printable md = true ->
  let probe := fun ide => versionCommand ide (searchCmdOf h) in
  ((value (detectClineVersion h) = "unknown" /\
    spawned (detectClineVersion h) = map probe ["code"; "cursor"; "windsurf"] /\
    Forall (fun ide => versionFrom (exec h (probe ide)) = None)
      ["code"; "cursor"; "windsurf"])
   \/
   (exists pre ide post v,
       ["code"; "cursor"; "windsurf"] = (pre ++ ide :: post)%list /\
       Forall (fun ide => versionFrom (exec h (probe ide)) = None) pre /\
       versionFrom (exec h (probe ide)) = Some v /\
       value (detectClineVersion h) = v /\
       spawned (detectClineVersion h) = map probe (pre ++ [ide])%list))
  /\ value (callTool h request)
     = (if String.eqb (params_name request) "preview_cline_issue"
        then Return
               {| text := Json.stringify2
                            (previewObject title (bodyOn h md description)
                               labels);
                  isError := false |}
        else match exec h (ghCommand title (bodyOn h md description) labels)
             with
             | Completed ghStdout ghStderr => ghResult ghStdout ghStderr
             | Rejected stderr stdout message =>
                 ghRejected stderr stdout message
             end).
Proof.
  intros K A C G T probe. split.
  - apply (probeIdes_spec h (searchCmdOf h) ides).
  - rewrite (callTool_handles h request args title description labels K A C).
    now destruct (handleIssue_located h (params_name request) title
                    description labels md G T) as [V _].
Qed.

Lemma version_detection_never_fatal_witness :
  value (callTool (Sample.withExec Sample.linux
                     (fun command => Rejected "" "" "spawn /bin/sh ENOENT"))
           (Sample.preview "T" "D" None))
  = Return
      {| text := Json.stringify2
                   (previewObject "T"
                      (formatBody "unknown" "Code" "linux" "6.8.0" "P" "M" "D")
                      None);
         isError := false |}.
Proof.
  apply (version_detection_never_fatal
           (Sample.withExec Sample.linux
              (fun command => Rejected "" "" "spawn /bin/sh ENOENT"))
           (Sample.preview "T" "D" None) (Sample.arguments "T" "D" None)
           "T" "D" None
           {| Locator.apiProvider := JString "P";
          Locator.modelName := JString "M";
              Locator.ideUsed := "Code" |}).
  - left. reflexivity.
  - reflexivity.
  - repeat split.
  - vm_compute. reflexivity.
  - reflexivity.
Defined.

Example matchVersion_first :
  matchVersion ("ms-python.python@2024.1" ++ Json.nl
                ++ "saoudrizwan.claude-dev@ saoudrizwan.claude-dev@3.17.4-x")
  = Some "3.17.4".
Proof. reflexivity. Qed.

Example matchVersion_none : matchVersion "saoudrizwan.claude-dev@beta" = None.
Proof. reflexivity. Qed.

Example schema_declares_vocabulary :
  Forall (fun tool =>
            declaredLabels (tool_inputSchema tool)
            = Some (JArray (map JString gitHubLabels))) listTools.
Proof. repeat constructor. Qed.

(** C2 as stated does not hold: a label outside the vocabulary that the
    schema declares passes the validation and reaches the [gh] command. *)
Lemma label_outside_vocabulary_accepted :
  declaredLabels inputSchema = Some (JArray (map JString gitHubLabels))
  /\ existsb (String.eqb "wontfix") gitHubLabels = false
  /\ isValidReportArgs
       (params_arguments (Sample.report "T" "D" (Some ["wontfix"]))) = true
  /\ callTool Sample.linux (Sample.report "T" "D" (Some ["wontfix"]))
     = (success Sample.issueUrl,
        [ versionCommand "code" "grep"; versionCommand "cursor" "grep";
          ghCommand "T" (formatBody "3.17.4" "Code" "linux" "6.8.0" "P" "M" "D")
            None ++ " --label 'wontfix'" ]).
Proof. repeat split; vm_compute; reflexivity. Qed.

Example vocabulary_labels_joined :
  labelSuffix (Some ["Bug"; "Help Wanted"; "Won't/Unable to Fix"])
  = " --label 'Bug','Help Wanted','Won'\''t/Unable to Fix'".
Proof. reflexivity. Qed.

(** C2, amended. The vocabulary is declared in the advertised schema only;
    the validation of the handler accepts every labels array of strings,
    drawn from the vocabulary or not, and rejects only a labels value
    that is no array of strings, before any processing.  Every labels
    array that is not empty is passed through: each label is
    shell-escaped, the escaped labels are joined by commas behind
    [--label], the report runs that command, and the shell reads the
    argument back as the labels, unchanged, joined by commas.  An empty
    labels array adds no [--label] argument. *)
Theorem labels_pass_through (h : Host) (request : Request) (args : JsValue)
  (title description : string) (labels : list string) :
  knownTool (params_name request) ->
  params_arguments request = Some args ->
  carries args title description (Some labels) ->
  isValidReportArgs (params_arguments request) = true
  /\ (forall body,
         labels <> [] ->
         ghCommand title body (Some labels)
         = ghCommand title body None
           ++ " --label " ++ Str.join "," (map escapeShellArg labels)
         /\ Sh.words (ghCommand title body (Some labels))
            = Some ["gh"; "issue"; "create"; "--repo"; "cline/cline";
                    "--title"; title; "--body"; body;
                    "--label"; Str.join "," labels])
  /\ (forall body,
         labels = [] ->
         ghCommand title body (Some labels) = ghCommand title body None)
  /\ (forall md,
         Locator.getApiMetadata h = Ok md ->
         printable md = true ->
         params_name request = "report_cline_issue" ->
         spawned (callTool h request)
         = (spawned (detectClineVersion h)
            ++ [ghCommand title (bodyOn h md description) (Some labels)])%list)
  /\ (forall other fields value,
         params_arguments other = Some (JObject fields) ->
         Json.assoc "labels" fields = Some value ->
         (forall ls, value <> JArray (map JString ls)) ->
         callTool h other
         = (if negb (String.eqb (params_name other) "report_cline_issue")
               && negb (String.eqb (params_name other) "preview_cline_issue")
            then Throw MethodNotFound ("Unknown tool: " ++ params_name other)
            else Throw InvalidParams
                   ("Invalid arguments for " ++ params_name other
                    ++ ". Requires: description (string), title (string), labels (string[], optional)."),
            [])).
Proof.
  intros K A C.
  destruct (carries_valid _ _ _ _ C) as (V & _).
  split; [now rewrite A|]. split; [|split; [|split]].
  - intros body NE. split.
    + unfold ghCommand.
      destruct labels as [|l ls]; [congruence|]. cbn [labelSuffix].
      rewrite !append_assoc. reflexivity.
    + rewrite words_ghCommand. unfold ghArgv.
      now destruct labels as [|l ls]; [congruence|].
  - now intros body ->.
  - intros md G T N.
    rewrite (callTool_handles h request args title description (Some labels)
               K A C).
    destruct (handleIssue_located h (params_name request) title description
                (Some labels) md G T) as [_ S].
    now rewrite S, N.
  - intros other fields v A' L Bad. unfold callTool.
    destruct (negb (String.eqb (params_name other) "report_cline_issue")
              && negb (String.eqb (params_name other) "preview_cline_issue"));
      [reflexivity|].
    assert (I : isValidReportArgs (params_arguments other) = false).
    { rewrite A'. unfold isValidReportArgs. cbn [Json.getProp]. rewrite L.
      destruct v as [| | | |items|]; try now rewrite !andb_false_r.
      destruct (forallb (fun l => isString (Some l)) items) eqn:F;
        [|now rewrite !andb_false_r].
      destruct (array_of_strings items F) as (ls & ->).
      now destruct (Bad ls). }
    now rewrite I.
Qed.

Lemma labels_pass_through_witness :
  Sh.words (ghCommand "T" "D" (Some ["Bug"; "Won't/Unable to Fix"]))
  = Some ["gh"; "issue"; "create"; "--repo"; "cline/cline"; "--title"; "T";
          "--body"; "D"; "--label"; "Bug,Won't/Unable to Fix"].
Proof.
  apply (labels_pass_through Sample.linux
           (Sample.report "T" "D" (Some ["Bug"; "Won't/Unable to Fix"]))
           (Sample.arguments "T" "D" (Some ["Bug"; "Won't/Unable to Fix"]))
           "T" "D" ["Bug"; "Won't/Unable to Fix"]).
  - right. reflexivity.
  - reflexivity.
  - repeat split.
  - discriminate.
Defined.

(** * Further properties of the request handler *)

Section Dispatch.

Local Open Scope list_scope.

Variable h : Host.

Lemma knownTool_dispatch_iff (toolName : string) :
  negb (String.eqb toolName "report_cline_issue")
  && negb (String.eqb toolName "preview_cline_issue") = false
  <-> knownTool toolName.
Proof.
  unfold knownTool.
  destruct (String.eqb_spec toolName "report_cline_issue") as [R|R];
    destruct (String.eqb_spec toolName "preview_cline_issue") as [P|P];
    cbn; intuition congruence.
Qed.

Lemma advertised_iff (toolName : string) :
  In toolName advertisedNames <-> knownTool toolName.
Proof.
  unfold advertisedNames, knownTool. cbn. intuition congruence.
Qed.

Lemma callTool_unfold (request : Request) :
  callTool h request
  = if negb (String.eqb (params_name request) "report_cline_issue")
       && negb (String.eqb (params_name request) "preview_cline_issue")
    then ret (Throw MethodNotFound ("Unknown tool: " ++ params_name request))
    else if negb (isValidReportArgs (params_arguments request))
    then ret (invalidArguments (params_name request))
    else handleIssue h (params_name request) (titleOf request)
           (descriptionOf request) (labelsOfRequest request).
Proof. reflexivity. Qed.

Lemma callTool_accepted (request : Request) :
  knownTool (params_name request) ->
  isValidReportArgs (params_arguments request) = true ->
  callTool h request
  = handleIssue h (params_name request) (titleOf request)
      (descriptionOf request) (labelsOfRequest request).
Proof.
  intros K V. rewrite callTool_unfold.
  apply knownTool_dispatch_iff in K. now rewrite K, V.
Qed.

Lemma handleIssue_failed (toolName title description : string)
  (labels : option (list string)) (msg : string) :
  Locator.getApiMetadata h = Err msg ->
  handleIssue h toolName title description labels
  = ret (metadataFailure msg).
Proof. intro G. unfold handleIssue. now rewrite G. Qed.

End Dispatch.

(** X1. The validation accepts exactly the objects that hold a string
    under [description], a string under [title], and under [labels]
    either nothing or an array of strings (the empty array included).
    [undefined], [null], arrays and primitive values are refused;
    further properties of the object are ignored. *)
Theorem isValidReportArgs_iff (args : option JsValue) :
  isValidReportArgs args = true <->
  exists fields title description,
    args = Some (JObject fields) /\
    Json.assoc "title" fields = Some (JString title) /\
    Json.assoc "description" fields = Some (JString description) /\
    (Json.assoc "labels" fields = None \/
     exists ls, Json.assoc "labels" fields = Some (JArray (map JString ls))).
Proof.
  split.
  - destruct args as [[| | | |items|fields]|]; try discriminate.
    unfold isValidReportArgs. cbn [Json.getProp].
    destruct (Json.assoc "description" fields) as [[| | |d| |]|] eqn:D;
      try discriminate.
    destruct (Json.assoc "title" fields) as [[| | |t| |]|] eqn:T;
      try discriminate.
    cbn [isString andb].
    destruct (Json.assoc "labels" fields) as [[| | | |ls|]|] eqn:L;
      try discriminate.
    + intro F. destruct (array_of_strings ls F) as (strs & ->).
      exists fields, t, d. repeat split; try assumption. right. now exists strs.
    + intros _. exists fields, t, d. repeat split; try assumption. now left.
  - intros (fields & t & d & -> & T & D & L).
    unfold isValidReportArgs. cbn [Json.getProp]. rewrite T, D.
    cbn [isString andb].
    destruct L as [->|(ls & ->)]; [reflexivity|apply strings_are_strings].
Qed.

Section Outcomes.

Local Open Scope list_scope.

Variable h : Host.

Lemma firstTruthy_empty (a b c : string) :
  truthy (firstTruthy a b c) = false ->
  a = ""%string /\ b = ""%string /\ c = ""%string.
Proof.
  unfold firstTruthy.
  destruct (truthy a) eqn:A; [congruence|].
  destruct (truthy b) eqn:B; [congruence|].
  intro C. now rewrite truthy_false_iff in A, B, C.
Qed.

Lemma ghResult_returns (out err : string) :
  exists r, ghResult out err = Return r.
Proof.
  unfold ghResult, failure, success.
  destruct (truthy err && negb (truthy out)); eauto.
Qed.

(** A rejected [gh] never yields a response that is not flagged. *)
Lemma ghRejected_flagged (stderr stdout message : string) (r : Response) :
  ghRejected stderr stdout message = Return r -> isError r = true.
Proof.
  unfold ghRejected, failure.
  destruct (truthy (firstTruthy stderr stdout message)); [|discriminate].
  destruct (Str.includes "gh not found" _ || Str.includes "command not found" _);
    [now intros [= <-]|].
  destruct (Str.includes "authentication required" _); now intros [= <-].
Qed.

Lemma ghRejected_throws_iff (stderr stdout message : string)
  (code : ErrorCode) (text : string) :
  ghRejected stderr stdout message = Throw code text <->
  stderr = ""%string /\ stdout = ""%string /\ message = ""%string /\
  code = InternalError /\ text = "Failed to report issue: "%string.
Proof.
  split.
  - unfold ghRejected, failure.
    destruct (truthy (firstTruthy stderr stdout message)) eqn:T.
    + destruct (Str.includes "gh not found" _
                || Str.includes "command not found" _); [discriminate|].
      destruct (Str.includes "authentication required" _); discriminate.
    + destruct (firstTruthy_empty _ _ _ T) as (-> & -> & ->).
      now intros [= <- <-].
  - now intros (-> & -> & -> & -> & ->).
Qed.

End Outcomes.

(** X2. The handler throws a protocol error in exactly three situations:
    [MethodNotFound] when the tool name is not one the server advertises,
    [InvalidParams] when the name is advertised and the arguments fail the
    validation, and [InternalError] when a report with valid arguments got
    its metadata and the [gh] process was rejected with an error that
    carries neither error-stream text, nor output, nor a message.  Every
    other request gets a response. *)
Theorem callTool_throws_iff (h : Host) (request : Request) (code : ErrorCode)
  (message : string) :
  value (callTool h request) = Throw code message <->
  (~ In (params_name request) advertisedNames /\
   code = MethodNotFound /\
   message = "Unknown tool: " ++ params_name request)
  \/
  (In (params_name request) advertisedNames /\
   isValidReportArgs (params_arguments request) = false /\
   code = InvalidParams /\
   message = "Invalid arguments for " ++ params_name request
             ++ ". Requires: description (string), title (string), labels (string[], optional).")
  \/
  (params_name request = "report_cline_issue" /\
   isValidReportArgs (params_arguments request) = true /\
   code = InternalError /\ message = "Failed to report issue: " /\
   exists md,
     Locator.getApiMetadata h = Ok md /\ printable md = true /\
     exec h (ghCommandOn h md request) = Rejected "" "" "").
Proof.
  rewrite callTool_unfold.
  destruct (negb (String.eqb (params_name request) "report_cline_issue")
            && negb (String.eqb (params_name request) "preview_cline_issue"))
    eqn:U.
  - assert (NK : ~ knownTool (params_name request)).
    { intro K. apply knownTool_dispatch_iff in K. congruence. }
    unfold value, ret; cbn [fst]. split.
    + intros [= <- <-]. left. rewrite advertised_iff. now repeat split.
    + intros [(_ & -> & ->)|[(A & _)|(N & _)]]; [reflexivity| |].
      * apply advertised_iff in A. contradiction.
      * exfalso. apply NK. now right.
  - apply knownTool_dispatch_iff in U.
    destruct (isValidReportArgs (params_arguments request)) eqn:V; cbn [negb].
    + destruct (Locator.getApiMetadata h) as [md|msg] eqn:G.
      * destruct (printable md) eqn:P.
        -- destruct (handleIssue_located h (params_name request)
                      (titleOf request) (descriptionOf request)
                      (labelsOfRequest request) md G P) as [Val _].
           rewrite Val. fold (ghCommandOn h md request). split.
           ++ destruct U as [N|N]; rewrite ?N;
                cbn [String.eqb Ascii.eqb Bool.eqb]; [discriminate|].
              destruct (exec h (ghCommandOn h md request))
                as [out err|stderr stdout msg'] eqn:E.
              ** destruct (ghResult_returns out err) as (r & ->).
                 discriminate.
              ** intro T. apply ghRejected_throws_iff in T.
                 destruct T as (-> & -> & -> & -> & ->).
                 right. right. repeat split; try assumption. now exists md.
           ++ intros [(NA & _)|[(_ & F & _)
                               |(N & _ & -> & -> & md' & G' & _ & E)]].
              ** exfalso. apply NA. now apply advertised_iff.
              ** discriminate.
              ** assert (md' = md) by congruence. subst md'.
                 rewrite N. cbn [String.eqb Ascii.eqb Bool.eqb].
                 now rewrite E.
        -- destruct (handleIssue_unprintable h (params_name request)
                      (titleOf request) (descriptionOf request)
                      (labelsOfRequest request) md G P) as [Val _].
           rewrite Val. split; [discriminate|].
           intros [(NA & _)|[(_ & F & _)
                            |(_ & _ & _ & _ & md' & G' & P' & _)]].
           ++ exfalso. apply NA. now apply advertised_iff.
           ++ discriminate.
           ++ congruence.
      * rewrite (handleIssue_failed h _ _ _ _ msg G).
        unfold value, ret, metadataFailure, failure; cbn [fst]. split.
        -- discriminate.
        -- intros [(NA & _)|[(_ & F & _)|(_ & _ & _ & _ & md' & G' & _)]].
           ++ exfalso. apply NA. now apply advertised_iff.
           ++ discriminate.
           ++ congruence.
    + unfold value, ret, invalidArguments; cbn [fst]. split.
      * intros [= <- <-]. right. left. rewrite advertised_iff.
        now repeat split.
      * intros [(NA & _)|[(_ & _ & -> & ->)|(_ & F & _)]].
        -- exfalso. apply NA. now apply advertised_iff.
        -- reflexivity.
        -- discriminate.
Qed.

(** X3. A request that the handler rejects, for its tool name or for its
    arguments, is rejected before any work: the outcome is the same on
    every host, so nothing of the host was read, and no process was
    started. *)
Theorem rejected_before_any_work (h h' : Host) (request : Request) :
  ~ In (params_name request) advertisedNames \/
  isValidReportArgs (params_arguments request) = false ->
  callTool h request = callTool h' request
  /\ spawned (callTool h request) = [].
Proof.
  intro R. rewrite !callTool_unfold.
  destruct (negb (String.eqb (params_name request) "report_cline_issue")
            && negb (String.eqb (params_name request) "preview_cline_issue"))
    eqn:U; [now split|].
  destruct R as [NA|V].
  - exfalso. apply NA. apply advertised_iff. now apply knownTool_dispatch_iff.
  - rewrite V. now split.
Qed.

Lemma rejected_before_any_work_witness :
  callTool Sample.linux
    {| params_name := "report_cline_issue";
       params_arguments := Some (JObject [("title", JString "T")]) |}
  = callTool (Sample.withPlatform Sample.linux "freebsd")
      {| params_name := "report_cline_issue";
         params_arguments := Some (JObject [("title", JString "T")]) |}.
Proof.
  apply (rejected_before_any_work Sample.linux
           (Sample.withPlatform Sample.linux "freebsd")
           {| params_name := "report_cline_issue";
              params_arguments := Some (JObject [("title", JString "T")]) |}).
  right. reflexivity.
Defined.

(** X4. When the [gh] process of a report is rejected, the handler never
    answers with a response that is not flagged as an error, and it throws
    only when the error carries no text at all.  The text it looks at is
    the error stream if that is not empty, else the output, else the
    message.  If that text holds [gh not found] or [command not found]
    the response is the hint to install [gh], also when it holds
    [authentication required] as well; if it holds only the latter, the
    hint to authenticate; otherwise the text itself behind a fixed prefix.
    [gh] ran once, behind the probes: there is no second attempt. *)
Theorem gh_rejected_response (h : Host) (request : Request)
  (md : Locator.ApiMetadata) (stderr stdout message : string) :
  params_name request = "report_cline_issue" ->
  isValidReportArgs (params_arguments request) = true ->
  Locator.getApiMetadata h = Ok md ->
  printable md = true ->
  exec h (ghCommandOn h md request) = Rejected stderr stdout message ->
  let errorMessage := firstTruthy stderr stdout message in
  (forall r, value (callTool h request) = Return r -> isError r = true)
  /\ (errorMessage <> "" -> exists r, value (callTool h request) = Return r)
  /\ (stderr <> "" -> errorMessage = stderr)
  /\ (stderr = "" -> stdout <> "" -> errorMessage = stdout)
  /\ (stderr = "" -> stdout = "" -> errorMessage = message)
  /\ (forall a b,
         errorMessage = a ++ "gh not found" ++ b \/
         errorMessage = a ++ "command not found" ++ b ->
         value (callTool h request)
         = Return {| text := "Error: GitHub CLI ('gh') not found. Please install it and authenticate (`gh auth login`).";
                     isError := true |})
  /\ (forall a b,
         errorMessage = a ++ "authentication required" ++ b ->
         Str.includes "gh not found" errorMessage = false ->
         Str.includes "command not found" errorMessage = false ->
         value (callTool h request)
         = Return {| text := "Error: GitHub CLI authentication required. Please run `gh auth login`.";
                     isError := true |})
  /\ (errorMessage <> "" ->
      Str.includes "gh not found" errorMessage = false ->
      Str.includes "command not found" errorMessage = false ->
      Str.includes "authentication required" errorMessage = false ->
      value (callTool h request)
      = Return {| text := "Command execution failed: " ++ errorMessage;
                  isError := true |})
  /\ spawned (callTool h request)
     = (spawned (detectClineVersion h) ++ [ghCommandOn h md request])%list.
Proof.
  intros N V G T E errorMessage.
  rewrite (callTool_accepted h request (or_intror N) V), N.
  destruct (handleIssue_located h "report_cline_issue" (titleOf request)
              (descriptionOf request) (labelsOfRequest request) md G T)
    as [Val Sp].
  fold (ghCommandOn h md request) in Val, Sp.
  cbn [String.eqb Ascii.eqb Bool.eqb] in Val, Sp.
  rewrite E in Val. rewrite Val, Sp.
  repeat match goal with |- _ /\ _ => split end.
  - apply ghRejected_flagged.
  - intro NE. apply truthy_true_iff in NE.
    unfold ghRejected. fold errorMessage. rewrite NE. unfold failure.
    destruct (Str.includes "gh not found" errorMessage
              || Str.includes "command not found" errorMessage); eauto.
    destruct (Str.includes "authentication required" errorMessage); eauto.
  - intro NE. apply truthy_true_iff in NE.
    unfold errorMessage, firstTruthy. now rewrite NE.
  - intros -> NE. apply truthy_true_iff in NE.
    unfold errorMessage, firstTruthy. now rewrite NE.
  - now intros -> ->.
  - intros a b Hold. unfold ghRejected. fold errorMessage.
    assert (NE : truthy errorMessage = true).
    { apply truthy_true_iff. destruct Hold as [-> | ->]; now destruct a. }
    assert (I : Str.includes "gh not found" errorMessage
                || Str.includes "command not found" errorMessage = true).
    { apply orb_true_iff.
      destruct Hold as [-> | ->]; [left|right]; apply includes_middle. }
    now rewrite NE, I.
  - intros a b Hold I1 I2. unfold ghRejected. fold errorMessage.
    assert (NE : truthy errorMessage = true).
    { apply truthy_true_iff. rewrite Hold. now destruct a. }
    rewrite NE, I1, I2. cbn [orb].
    now rewrite Hold, includes_middle.
  - intros NE I1 I2 I3. apply truthy_true_iff in NE.
    unfold ghRejected. fold errorMessage. now rewrite NE, I1, I2, I3.
  - reflexivity.
Qed.

Lemma gh_rejected_response_witness :
  value (callTool
           (ghFails "/bin/sh: 1: gh: command not found" ""
              "Command failed: gh issue create")
           (Sample.report "T" "D" None))
  = Return {| text := "Error: GitHub CLI ('gh') not found. Please install it and authenticate (`gh auth login`).";
              isError := true |}.
Proof.
  destruct (gh_rejected_response
              (ghFails "/bin/sh: 1: gh: command not found" ""
                 "Command failed: gh issue create")
              (Sample.report "T" "D" None)
              {| Locator.apiProvider := JString "P";
          Locator.modelName := JString "M";
                 Locator.ideUsed := "Code" |}
              "/bin/sh: 1: gh: command not found" ""
              "Command failed: gh issue create"
              eq_refl eq_refl eq_refl eq_refl eq_refl)
    as (_ & _ & _ & _ & _ & Hint & _).
  apply (Hint "/bin/sh: 1: gh: " ""). right. reflexivity.
Defined.





(** X7. A report answers with a response that is not flagged as an error
    only if the locator succeeded and the [gh] process it started
    completed with output or with an empty error stream; the text of the
    response is then that output, or the fixed message when there is
    none. *)
Theorem report_success_means_gh_completed (h : Host) (request : Request)
  (r : Response) :
  params_name request = "report_cline_issue" ->
  isValidReportArgs (params_arguments request) = true ->
  value (callTool h request) = Return r ->
  isError r = false ->
  exists md ghStdout ghStderr,
    Locator.getApiMetadata h = Ok md /\
    In (ghCommandOn h md request) (spawned (callTool h request)) /\
    exec h (ghCommandOn h md request) = Completed ghStdout ghStderr /\
    (ghStdout <> "" \/ ghStderr = "") /\
    text r = (if truthy ghStdout then ghStdout
              else "Issue reported successfully (no stdout from gh).").
Proof.
  intros N V.
  rewrite (callTool_accepted h request (or_intror N) V), N.
  destruct (Locator.getApiMetadata h) as [md|msg] eqn:G.
  - destruct (printable md) eqn:T.
    + destruct (handleIssue_located h "report_cline_issue" (titleOf request)
                  (descriptionOf request) (labelsOfRequest request) md G T)
        as [-> ->].
      fold (ghCommandOn h md request). cbn [String.eqb Ascii.eqb Bool.eqb].
      destruct (exec h (ghCommandOn h md request))
        as [out err|stderr stdout message] eqn:E.
      * intros R F.
        assert (S : (out <> "" \/ err = "") /\
                    text r = (if truthy out then out
                              else "Issue reported successfully (no stdout from gh).")).
        { unfold ghResult, failure, success in R.
          destruct (truthy err) eqn:Te, (truthy out) eqn:To;
            cbn [andb negb] in R; injection R as <-; cbn [text isError] in *;
            try discriminate F; (split; [|reflexivity]).
          - left. now apply truthy_true_iff.
          - left. now apply truthy_true_iff.
          - right. now apply truthy_false_iff. }
        exists md, out, err. split; [reflexivity|].
        split; [apply in_or_app; right; now left|].
        split; [exact E|exact S].
      * intros R F. apply ghRejected_flagged in R. congruence.
    + destruct (handleIssue_unprintable h "report_cline_issue"
                  (titleOf request) (descriptionOf request)
                  (labelsOfRequest request) md G T) as [-> _].
      unfold failure. intros [= <-] F. discriminate F.
  - rewrite (handleIssue_failed h _ _ _ _ msg G).
    unfold metadataFailure, failure, value, ret. cbn [fst].
    intros [= <-] F. discriminate F.
Qed.

Lemma report_success_means_gh_completed_witness :
  exists md ghStdout ghStderr,
    Locator.getApiMetadata Sample.linux = Ok md /\
    exec Sample.linux
      (ghCommandOn Sample.linux md (Sample.report "T" "D" None))
    = Completed ghStdout ghStderr.
Proof.
  assert (V : value (callTool Sample.linux (Sample.report "T" "D" None))
              = Return {| text := Sample.issueUrl; isError := false |})
    by (vm_compute; reflexivity).
  destruct (report_success_means_gh_completed Sample.linux
              (Sample.report "T" "D" None)
              {| text := Sample.issueUrl; isError := false |}
              eq_refl eq_refl V eq_refl)
    as (md & out & err & G & _ & E & _).
  exists md, out, err. split; [exact G|exact E].
Defined.

(** * Further properties of the locator *)

Section ScanSoundness.

Import Locator.
Local Open Scope list_scope.

Variable h : Host.

(** What the scan selected is the first directory that reaches the
    highest number. *)
Lemma scan_selected (paths : list string) (n : Z) (p : string) :
  scan h paths = (n, Some p) ->
  exists pre post,
    paths = pre ++ p :: post /\ dirHighest h p = Some n /\
    (forall q m, In q pre -> dirHighest h q = Some m -> m < n) /\
    (forall q m, In q post -> dirHighest h q = Some m -> m <= n).
Proof.
  intro S. unfold scan, scanInit in S.
  destruct (scan_from h paths (-1) None)
    as [[E _]|(pre & p' & post & P & E & D & _ & Bpre & Bpost)].
  - rewrite S in E. discriminate.
  - rewrite S in E, D, Bpre, Bpost. cbn [fst] in *.
    injection E as <-. now exists pre, post.
Qed.

Lemma scan_unselected (paths : list string) (n : Z) :
  scan h paths = (n, None) -> n = -1.
Proof.
  intro S. unfold scan, scanInit in S.
  destruct (scan_from h paths (-1) None)
    as [[E _]|(pre & p' & post & P & E & _)].
  - rewrite S in E. now injection E.
  - rewrite S in E. discriminate.
Qed.

Lemma dirHighest_none_iff (p : string) :
  dirHighest h p = None <-> forall k, ~ hasRecord h p k.
Proof.
  split.
  - intros D k R. destruct (hasRecord_dirHighest h p k R) as (m & D' & _).
    congruence.
  - intro N. destruct (dirHighest h p) as [m|] eqn:D; [|reflexivity].
    destruct (dirHighest_spec h p m D) as [R _]. now destruct (N m).
Qed.

End ScanSoundness.

Lemma scan_cases (h : Host) (paths : list string) :
  match Locator.scan h paths with
  | (n, Some p) =>
      In p paths /\ 0 <= n /\ Locator.hasRecord h p n /\
      forall q k, In q paths -> Locator.hasRecord h q k -> k <= n
  | (n, None) =>
      n = -1 /\ forall q k, In q paths -> ~ Locator.hasRecord h q k
  end.
Proof.
  destruct (Locator.scan h paths) as [n [p|]] eqn:S.
  - destruct (scan_selected h paths n p S) as (pre & post & P & D & Bpre & Bpost).
    destruct (dirHighest_spec h p n D) as [R B].
    split; [rewrite P; apply in_or_app; right; now left|].
    split; [now apply hasRecord_nonneg with h p|].
    split; [exact R|].
    intros q k Hin Rq.
    destruct (hasRecord_dirHighest h q k Rq) as (m & Dq & Km).
    rewrite P in Hin. apply in_app_or in Hin.
    destruct Hin as [Hin|[<-|Hin]].
    + specialize (Bpre q m Hin Dq). lia.
    + rewrite D in Dq. injection Dq as <-. exact Km.
    + specialize (Bpost q m Hin Dq). lia.
  - split; [now apply scan_unselected with h paths|].
    intros q k Hin. apply dirHighest_none_iff.
    now apply scan_none_no_record with paths n.
Qed.

(** X8. The scan never selects a directory without a record: when it
    ends on a directory, that directory is a candidate, the number is not
    negative, is a record of that directory and bounds every record of
    every candidate; when it ends on none, the number is still -1 and no
    candidate holds any record. *)
Theorem scan_result_sound (h : Host) (paths : list string) :
  match Locator.scan h paths with
  | (n, Some p) =>
      In p paths /\ 0 <= n /\ Locator.hasRecord h p n /\
      forall q k, In q paths -> Locator.hasRecord h q k -> k <= n
  | (n, None) =>
      n = -1 /\ forall q k, In q paths -> ~ Locator.hasRecord h q k
  end.
Proof.
  destruct (Locator.scan h paths) as [n [p|]] eqn:S.
  - destruct (scan_selected h paths n p S) as (pre & post & P & D & Bpre & Bpost).
    destruct (dirHighest_spec h p n D) as [R B].
    split; [rewrite P; apply in_or_app; right; now left|].
    split; [now apply hasRecord_nonneg with h p|].
    split; [exact R|].
    intros q k Hin Rq.
    destruct (hasRecord_dirHighest h q k Rq) as (m & Dq & Km).
    rewrite P in Hin. apply in_app_or in Hin.
    destruct Hin as [Hin|[<-|Hin]].
    + specialize (Bpre q m Hin Dq). lia.
    + rewrite D in Dq. injection Dq as <-. exact Km.
    + specialize (Bpost q m Hin Dq). lia.
  - split; [now apply scan_unselected with h paths|].
    intros q k Hin. apply dirHighest_none_iff.
    now apply scan_none_no_record with paths n.
Qed.

Section Orders.

Import Locator.
Local Open Scope list_scope.

Variable h : Host.

Lemma Math_max_permutation (x y : Z) (xs ys : list Z) :
  Permutation.Permutation (x :: xs) (y :: ys) ->
  Math_max x xs = Math_max y ys.
Proof.
  intro P.
  pose proof (Math_max_in xs x) as I1. pose proof (Math_max_in ys y) as I2.
  apply (Permutation.Permutation_in _ P) in I1.
  apply (Permutation.Permutation_in _ (Permutation.Permutation_sym P)) in I2.
  apply (Math_max_ge ys y) in I1. apply (Math_max_ge xs x) in I2. lia.
Qed.

Lemma scan_fold_ext (h' : Host) (paths : list string) (st : ScanState) :
  (forall p, dirHighest h' p = dirHighest h p) ->
  fold_left (scanStep h') paths st = fold_left (scanStep h) paths st.
Proof.
  intro D. revert st. induction paths as [|p paths IH]; intro st;
    [reflexivity|].
  cbn [fold_left]. rewrite !scanStep_dirHighest, D. apply IH.
Qed.

Lemma dirHighest_listing (f : string -> option (list Dirent)) (p : string) :
  sameListing (fs_readdir h p) (f p) ->
  dirHighest (withReaddir h f) p = dirHighest h p.
Proof.
  unfold sameListing, dirHighest, numericDirs. cbn [fs_stat fs_readdir withReaddir].
  destruct (fs_stat h p); [|reflexivity].
  destruct (fs_readdir h p) as [xs|], (f p) as [ys|]; try contradiction;
    [|reflexivity].
  intro P.
  set (keep := fun entry : Dirent =>
                 isDirectory entry && isNumericName (name entry)).
  set (num := fun entry : Dirent => parseInt10 (name entry)).
  assert (Q : Permutation.Permutation (map num (filter keep ys))
                (map num (filter keep xs))).
  { apply Permutation.Permutation_map, Permutation.Permutation_sym.
    clear -P. induction P as [|e a b P IH|e e' a|a b c P1 IH1 P2 IH2].
    - constructor.
    - cbn [filter]. destruct (keep e); [now constructor|exact IH].
    - cbn [filter]. destruct (keep e), (keep e');
        try apply Permutation.Permutation_refl. constructor.
    - now apply Permutation.perm_trans with (filter keep b). }
  destruct (map num (filter keep ys)) as [|y ys'],
           (map num (filter keep xs)) as [|x xs'].
  - reflexivity.
  - apply Permutation.Permutation_nil in Q. discriminate.
  - apply Permutation.Permutation_sym, Permutation.Permutation_nil in Q.
    discriminate.
  - f_equal. now apply Math_max_permutation.
Qed.

(** The read of the record only looks at the files, at [JSON.parse], at
    [path.join] and at the comparison of the host. *)
Lemma reduce_host (h' : Host) (usage : list JsValue) (a : JsValue) :
  js_greater h' = js_greater h ->
  reduce h' usage a = reduce h usage a.
Proof.
  intro E.
  assert (L : forall latest current,
             later h' latest current = later h latest current).
  { intros latest current. unfold later, greater. now rewrite E. }
  revert a. induction usage as [|c usage IH]; intro a; [reflexivity|].
  cbn [reduce]. rewrite L.
  destruct (later h a c); [apply IH|reflexivity].
Qed.

Lemma readRecord_host (h' : Host) (p : string) (n : Z) :
  path_join h' = path_join h -> fs_readFile h' = fs_readFile h ->
  JSON_parse h' = JSON_parse h -> js_greater h' = js_greater h ->
  readRecord h' p n = readRecord h p n.
Proof.
  intros PJ RF JP JG.
  unfold readRecord, readLatest, metadataFilePath, latestEntry.
  rewrite PJ, RF, JP.
  destruct (fs_readFile h _) as [content|]; [|reflexivity].
  destruct (JSON_parse h content) as [document|]; [|reflexivity].
  destruct (Json.readProp document "model_usage")
    as [[[| | | |[|u usage]|]|]|]; try reflexivity.
  now rewrite (reduce_host h' (u :: usage) JNull JG).
Qed.

End Orders.

(** X9. The number the scan ends on does not depend on the order of the
    candidate directories, and neither does whether it selects one: the
    order only decides which directory wins a tie. *)
Theorem scan_number_order_independent (h : Host) (paths paths' : list string) :
  Permutation.Permutation paths paths' ->
  fst (Locator.scan h paths) = fst (Locator.scan h paths')
  /\ (snd (Locator.scan h paths) = None
      <-> snd (Locator.scan h paths') = None).
Proof.
  intro P.
  pose proof (scan_cases h paths) as A. pose proof (scan_cases h paths') as B.
  destruct (Locator.scan h paths) as [n [p|]],
           (Locator.scan h paths') as [n' [p'|]]; cbn [fst snd].
  - destruct A as (Hin & _ & R & Bn), B as (Hin' & _ & R' & Bn').
    split; [|split; discriminate].
    apply (Permutation.Permutation_in _ P) in Hin.
    apply (Permutation.Permutation_in _ (Permutation.Permutation_sym P))
      in Hin'.
    specialize (Bn' p n Hin R). specialize (Bn p' n' Hin' R'). lia.
  - exfalso. destruct A as (Hin & _ & R & _), B as (_ & N).
    apply (N p n); [|exact R]. now apply (Permutation.Permutation_in _ P).
  - exfalso. destruct A as (_ & N), B as (Hin' & _ & R' & _).
    apply (N p' n'); [|exact R'].
    now apply (Permutation.Permutation_in _ (Permutation.Permutation_sym P)).
  - destruct A as (-> & _), B as (-> & _). now split.
Qed.

Lemma scan_number_order_independent_witness :
  fst (Locator.scan Sample.linux
         [Sample.tasks "Windsurf"; Sample.tasks "Cursor"; Sample.tasks "Code"])
  = 1700000000005
  /\ Locator.scan Sample.linux
       [Sample.tasks "Windsurf"; Sample.tasks "Cursor"; Sample.tasks "Code"]
     = (1700000000005, Some (Sample.tasks "Cursor")).
Proof.
  split; [|reflexivity].
  destruct (scan_number_order_independent Sample.linux
              [Sample.tasks "Code"; Sample.tasks "Cursor";
               Sample.tasks "Windsurf"]
              [Sample.tasks "Windsurf"; Sample.tasks "Cursor";
               Sample.tasks "Code"]) as [E _].
  - apply (Permutation.Permutation_rev
             [Sample.tasks "Code"; Sample.tasks "Cursor";
              Sample.tasks "Windsurf"]).
  - rewrite <- E. reflexivity.
Defined.

(** X10. The locator does not depend on the order in which [readdir]
    lists the entries of a directory: a host whose listings hold the same
    entries in another order gets the same result. *)
Theorem locator_ignores_listing_order (h : Host)
  (f : string -> option (list Dirent)) :
  (forall path, sameListing (fs_readdir h path) (f path)) ->
  Locator.getApiMetadata (withReaddir h f) = Locator.getApiMetadata h.
Proof.
  intro L. unfold Locator.getApiMetadata.
  change (Locator.possiblePaths (withReaddir h f))
    with (Locator.possiblePaths h).
  destruct (Locator.possiblePaths h) as [paths|msg]; [|reflexivity].
  unfold Locator.scan.
  rewrite (scan_fold_ext h (withReaddir h f) paths Locator.scanInit)
    by (intro p; apply dirHighest_listing, L).
  destruct (fold_left (Locator.scanStep h) paths Locator.scanInit)
    as [n [p|]]; [|reflexivity].
  now apply readRecord_host.
Qed.

Lemma locator_ignores_listing_order_witness :
  Locator.getApiMetadata
    (withReaddir Sample.linux
       (fun path => option_map (@rev Dirent) (Sample.readdir path)))
  = Locator.getApiMetadata Sample.linux.
Proof.
  apply (locator_ignores_listing_order Sample.linux
           (fun path => option_map (@rev Dirent) (Sample.readdir path))).
  intro path. cbn [fs_readdir Sample.linux]. unfold sameListing.
  destruct (Sample.readdir path) as [entries|]; cbn [option_map];
    [apply Permutation.Permutation_rev|exact I].
Defined.

Section Reads.

Import Locator.
Local Open Scope list_scope.

Variable h : Host.



End Reads.





(** X13. The label of the selected directory is decided by substrings of
    the whole path, tried in the order Code, Cursor, Windsurf: it is Code
    exactly when the path holds Code anywhere, Cursor exactly when it
    holds Cursor and not Code, Windsurf exactly when it holds Windsurf and
    neither of the two, and Unknown exactly when it holds none.  So a
    path that holds Code, in the home directory for instance, is labelled
    Code whichever application its directory belongs to. *)
Theorem ide_label_by_substring (path : string) :
  let holds := fun ideName => exists a b, path = a ++ ideName ++ b in
  let label := Locator.ideOfPath Locator.ideNames path in
  (label = "Code" <-> holds "Code")
  /\ (label = "Cursor" <-> ~ holds "Code" /\ holds "Cursor")
  /\ (label = "Windsurf" <->
      ~ holds "Code" /\ ~ holds "Cursor" /\ holds "Windsurf")
  /\ (label = "Unknown" <->
      ~ holds "Code" /\ ~ holds "Cursor" /\ ~ holds "Windsurf").
Proof.
  cbn zeta. unfold Locator.ideNames. cbn [Locator.ideOfPath].
  pose proof (includes_iff "Code" path) as C.
  pose proof (includes_iff "Cursor" path) as U.
  pose proof (includes_iff "Windsurf" path) as W.
  destruct (Str.includes "Code" path);
    [|destruct (Str.includes "Cursor" path);
      [|destruct (Str.includes "Windsurf" path)]];
    intuition (discriminate || auto).
Qed.

Example ide_label_of_home :
  Locator.ideOfPath Locator.ideNames
    "/home/Coder/.config/Cursor/User/globalStorage/saoudrizwan.claude-dev/tasks"
  = "Code".
Proof. reflexivity. Qed.

(** * Record numbers and their numerals *)

Section Numerals.

Local Open Scope Z_scope.

Let step := fun (acc : Z) (c : ascii) => 10 * acc + digitValue c.

Lemma digit_cases (c : ascii) :
  Str.isDigit c = true ->
  In c ["0"; "1"; "2"; "3"; "4"; "5"; "6"; "7"; "8"; "9"]%char.
Proof.
  destruct c as [[] [] [] [] [] [] [] []]; cbn; intro D;
    try discriminate D; tauto.
Qed.

(** A numeric name is the text of a sequence of decimal digits. *)
Lemma numeric_is_numeral (s : string) :
  Str.forallb Str.isDigit s = true ->
  exists u, s = NilEmpty.string_of_uint u.
Proof.
  induction s as [|c s IH]; intro F.
  - now exists Decimal.Nil.
  - cbn [Str.forallb] in F. apply andb_true_iff in F. destruct F as [D F].
    destruct (IH F) as (u & ->).
    destruct (digit_cases c D)
      as [<-|[<-|[<-|[<-|[<-|[<-|[<-|[<-|[<-|[<-|[]]]]]]]]]]].
    + now exists (Decimal.D0 u).
    + now exists (Decimal.D1 u).
    + now exists (Decimal.D2 u).
    + now exists (Decimal.D3 u).
    + now exists (Decimal.D4 u).
    + now exists (Decimal.D5 u).
    + now exists (Decimal.D6 u).
    + now exists (Decimal.D7 u).
    + now exists (Decimal.D8 u).
    + now exists (Decimal.D9 u).
Qed.

Lemma parse_acc (u : Decimal.uint) (q : positive) :
  fold_left step (list_ascii_of_string (NilEmpty.string_of_uint u)) (Z.pos q)
  = Z.pos (Pos.of_uint_acc u q).
Proof.
  revert q. induction u as [|u IH|u IH|u IH|u IH|u IH|u IH|u IH|u IH|u IH|u IH];
    intro q; [reflexivity|..];
    cbn [NilEmpty.string_of_uint list_ascii_of_string fold_left Pos.of_uint_acc];
    match goal with
    | |- fold_left step _ ?a = Z.pos (Pos.of_uint_acc _ ?b) =>
        replace a with (Z.pos b)
          by (unfold step;
              match goal with
              | |- context [digitValue ?c] =>
                  let v := eval vm_compute in (digitValue c) in
                  change (digitValue c) with v
              end; lia)
    end; apply IH.
Qed.

Lemma parse_numeral (u : Decimal.uint) :
  digitsValue (NilEmpty.string_of_uint u) = Z.of_uint u.
Proof.
  unfold digitsValue, Z.of_uint. fold step.
  induction u as [|u IH|u IH|u IH|u IH|u IH|u IH|u IH|u IH|u IH|u IH];
    [reflexivity|exact IH|..];
    cbn [NilEmpty.string_of_uint list_ascii_of_string fold_left Pos.of_uint];
    match goal with
    | |- fold_left step _ ?a = Z.of_N (N.pos (Pos.of_uint_acc _ ?b)) =>
        replace a with (Z.pos b)
          by (unfold step;
              match goal with
              | |- context [digitValue ?c] =>
                  let v := eval vm_compute in (digitValue c) in
                  change (digitValue c) with v
              end; lia)
    end; apply parse_acc.
Qed.

Lemma of_uint_nonneg (u : Decimal.uint) : 0 <= Z.of_uint u.
Proof. unfold Z.of_uint. lia. Qed.

(** Below [2 ^ 53] the text of a number is its decimal numeral. *)
Lemma toString_of_uint (u : Decimal.uint) :
  Z.of_uint u < safeLimit ->
  toString (Z.of_uint u) = NilEmpty.string_of_uint (Decimal.unorm u).
Proof.
  intro B. pose proof (of_uint_nonneg u) as P. unfold toString.
  assert (L : (- safeLimit <? Z.of_uint u) && (Z.of_uint u <? safeLimit)
              = true).
  { apply andb_true_iff. split; apply Z.ltb_lt; [|exact B].
    unfold safeLimit in *. lia. }
  rewrite L. unfold decimal.
  change (Z.of_uint u) with (Z.of_int (Decimal.Pos u)).
  rewrite DecimalZ.to_of. cbn [Decimal.norm NilZero.string_of_int].
  pose proof (DecimalFacts.unorm_nonnil u) as N.
  now destruct (Decimal.unorm u).
Qed.

Lemma digitValue_le (c : ascii) :
  Str.isDigit c = true -> digitValue c <= 9.
Proof.
  unfold Str.isDigit, digitValue. intro D.
  apply andb_true_iff in D. destruct D as [_ D].
  apply Nat.leb_le in D. lia.
Qed.

(** A text of [n] digits denotes an integer below [10 ^ n]. *)
Lemma digits_bound (s : string) (acc : Z) :
  Str.forallb Str.isDigit s = true -> 0 <= acc ->
  fold_left step (list_ascii_of_string s) acc
  < (acc + 1) * 10 ^ Z.of_nat (String.length s).
Proof.
  revert acc. induction s as [|c s IH]; intros acc F A.
  - cbn [list_ascii_of_string fold_left String.length Z.of_nat].
    rewrite Z.pow_0_r. lia.
  - cbn [Str.forallb] in F. apply andb_true_iff in F. destruct F as [D F].
    cbn [list_ascii_of_string fold_left String.length].
    pose proof (digitValue_nonneg c D) as D0.
    pose proof (digitValue_le c D) as D9.
    assert (A' : 0 <= step acc c) by (unfold step; lia).
    specialize (IH (step acc c) F A').
    rewrite Nat2Z.inj_succ, Z.pow_succ_r by lia.
    pose proof (Z.pow_pos_nonneg 10 (Z.of_nat (String.length s))
                  ltac:(lia) ltac:(lia)) as Pw.
    set (w := 10 ^ Z.of_nat (String.length s)) in *.
    set (r := fold_left step (list_ascii_of_string s) (step acc c)) in *.
    assert (E : step acc c = 10 * acc + digitValue c) by reflexivity.
    rewrite E in IH. nia.
Qed.

Lemma digitsValue_short (s : string) :
  isNumericName s = true -> (String.length s <= 15)%nat ->
  digitsValue s < safeLimit.
Proof.
  unfold isNumericName. intros N L.
  apply andb_true_iff in N. destruct N as [_ F].
  pose proof (digits_bound s 0 F ltac:(lia)) as B.
  assert (W : 10 ^ Z.of_nat (String.length s) <= 10 ^ 15)
    by (apply Z.pow_le_mono_r; lia).
  unfold digitsValue. fold step. unfold safeLimit.
  change (10 ^ 15) with 1000000000000000 in W. lia.
Qed.

Lemma numeral_inj (u v : Decimal.uint) :
  NilEmpty.string_of_uint u = NilEmpty.string_of_uint v -> u = v.
Proof.
  intro E. pose proof (NilEmpty.usu u) as A. pose proof (NilEmpty.usu v) as B.
  rewrite E in A. congruence.
Qed.

Lemma numeral_digits (u : Decimal.uint) :
  Str.forallb Str.isDigit (NilEmpty.string_of_uint u) = true.
Proof.
  induction u; cbn [NilEmpty.string_of_uint Str.forallb];
    [reflexivity|now rewrite IHu..].
Qed.

Lemma numeral_empty (u : Decimal.uint) :
  NilEmpty.string_of_uint u = ""%string -> u = Decimal.Nil.
Proof. now destruct u. Qed.

(** The numeral of [u] has no needless leading zero exactly when
    normalisation leaves [u] as it is. *)
Lemma canonical_iff_unorm (u : Decimal.uint) :
  u <> Decimal.Nil ->
  (String.eqb (NilEmpty.string_of_uint u) "0"
   || negb (Str.startsWith "0" (NilEmpty.string_of_uint u)) = true
   <-> Decimal.unorm u = u).
Proof.
  intro N. destruct u as [|l|l|l|l|l|l|l|l|l|l]; try congruence;
    try (split; reflexivity).
  cbn [NilEmpty.string_of_uint]. destruct l as [|l|l|l|l|l|l|l|l|l|l];
    try (split; reflexivity);
    (split; [discriminate|]); rewrite DecimalFacts.unorm_D0; intro E;
    match type of E with
    | Decimal.unorm ?d = _ =>
        pose proof (DecimalFacts.nb_digits_unorm d) as B;
        rewrite E in B; cbn [Decimal.nb_digits] in B;
        assert (d <> Decimal.Nil) as NN by discriminate;
        specialize (B NN); exfalso; revert B; clear;
        generalize (Decimal.nb_digits l); intros n B; lia
    end.
Qed.

Lemma isNumericName_numeral (s : string) :
  isNumericName s = true ->
  exists u, s = NilEmpty.string_of_uint u /\ u <> Decimal.Nil.
Proof.
  unfold isNumericName. intro N. apply andb_true_iff in N.
  destruct N as [NE F]. destruct (numeric_is_numeral s F) as (u & ->).
  exists u. split; [reflexivity|]. intros ->. discriminate NE.
Qed.

Lemma numeral_isNumericName (u : Decimal.uint) :
  u <> Decimal.Nil -> isNumericName (NilEmpty.string_of_uint u) = true.
Proof.
  intro N. unfold isNumericName. rewrite numeral_digits, andb_true_r.
  apply negb_true_iff, String.eqb_neq. intro E.
  now apply numeral_empty in E.
Qed.

End Numerals.

(** X14. The locator turns the name of the highest record into a number
    and the number back into a name.  For a name made of at most fifteen
    digits (the range on which the numbers of the source are exact), the
    name comes back unchanged exactly when it has no leading zero (or is
    the numeral of zero), and the sidecar is then looked up in the
    directory that was listed; a name with leading zeros parses to the
    same number as the name without them, and what comes back is the
    name without them. *)
Theorem numeral_round_trip (s : string) :
  isNumericName s = true ->
  (String.length s <= 15)%nat ->
  (toString (parseInt10 s) = s <-> isCanonicalName s = true)
  /\ isCanonicalName (toString (parseInt10 s)) = true
  /\ parseInt10 (toString (parseInt10 s)) = parseInt10 s
  /\ parseInt10 (String "0" s) = parseInt10 s
  /\ (isCanonicalName s = true ->
      forall h base,
        Locator.metadataFilePath h base (parseInt10 s)
        = path_join h [base; s; "task_metadata.json"]).
Proof.
  intros N L. pose proof (digitsValue_short s N L) as Small.
  rewrite (parseInt10_exact s Small).
  destruct (isNumericName_numeral s N) as (u & -> & NN).
  rewrite parse_numeral in *.
  rewrite (toString_of_uint u Small).
  assert (RT : NilEmpty.string_of_uint (Decimal.unorm u)
               = NilEmpty.string_of_uint u
               <-> isCanonicalName (NilEmpty.string_of_uint u) = true).
  { unfold isCanonicalName.
    rewrite N. cbn [andb]. rewrite (canonical_iff_unorm u NN). split.
    - apply numeral_inj.
    - now intros ->. }
  split; [exact RT|]. split; [|split; [|split]].
  - unfold isCanonicalName.
    rewrite (numeral_isNumericName _ (DecimalFacts.unorm_nonnil u)).
    cbn [andb].
    apply (canonical_iff_unorm _ (DecimalFacts.unorm_nonnil u)).
    apply DecimalFacts.unorm_involutive.
  - unfold parseInt10. rewrite parse_numeral.
    unfold Z.of_uint. rewrite DecimalPos.Unsigned.of_uint_norm.
    apply roundDouble_small. exact Small.
  - unfold parseInt10.
    change (digitsValue (String "0" (NilEmpty.string_of_uint u)))
      with (digitsValue (NilEmpty.string_of_uint u)).
    rewrite parse_numeral. apply roundDouble_small. exact Small.
  - intros C h base. unfold Locator.metadataFilePath.
    rewrite (toString_of_uint u Small).
    apply RT in C. now rewrite C.
Qed.

Lemma numeral_round_trip_witness :
  toString (parseInt10 "1700000000005") = "1700000000005"
  /\ toString (parseInt10 "007") = "7".
Proof.
  split; [|reflexivity].
  apply (numeral_round_trip "1700000000005");
    [reflexivity|cbn; lia|reflexivity].
Defined.

(** * Further properties of the version detection *)

(** X15. The pattern finds a version exactly when the output holds the
    tag [saoudrizwan.claude-dev@] directly followed by a digit or a dot;
    what it returns then stands behind an occurrence of the tag, is not
    empty, is made of digits and dots only, and is not followed by a
    digit or a dot: a suffix such as [-beta] is cut off. *)
Theorem matchVersion_finds_tagged_version (stdout : string) :
  ((exists v, matchVersion stdout = Some v) <->
   (exists pre c post,
       stdout = pre ++ versionTag ++ String c post /\
       isVersionChar c = true))
  /\ forall v,
       matchVersion stdout = Some v ->
       exists pre post,
         stdout = pre ++ versionTag ++ v ++ post /\
         v <> "" /\ Str.forallb isVersionChar v = true /\
         (post = "" \/
          exists c post', post = String c post' /\ isVersionChar c = false).
Proof.
  split; [split|].
  - intros (v & M).
    destruct (matchVersion_sound stdout v M) as (pre & post & E & NE & F & _).
    destruct v as [|c v]; [congruence|].
    cbn [Str.forallb] in F. apply andb_true_iff in F. destruct F as [C _].
    exists pre, c, (v ++ post). split; [exact E|exact C].
  - intros (pre & c & post & -> & C). now apply matchVersion_complete.
  - apply matchVersion_sound.
Qed.

(** X16. The detected version is either the text unknown or a text that
    is not empty, is made of digits and dots only and was cut out of the
    output of a completed probe of one of the three IDEs, behind the tag;
    the detection starts at least one and at most three processes. *)
Theorem detected_version_shape (h : Host) :
  let v := value (detectClineVersion h) in
  (v = "unknown" \/
   (v <> "" /\ Str.forallb isVersionChar v = true /\
    exists ide out err pre post,
      In ide ["code"; "cursor"; "windsurf"] /\
      exec h (versionCommand ide (searchCmdOf h)) = Completed out err /\
      out = pre ++ versionTag ++ v ++ post))
  /\ (1 <= length (spawned (detectClineVersion h)) <= 3)%nat.
Proof.
  cbn zeta. unfold detectClineVersion. fold (searchCmdOf h).
  destruct (probeIdes_spec h (searchCmdOf h) ides)
    as [(U & Sp & _)|(pre & ide & post & v & P & _ & V & U & Sp)];
    rewrite U, Sp.
  - split; [now left|]. cbn. lia.
  - split.
    + right. unfold versionFrom in V.
      destruct (exec h (versionCommand ide (searchCmdOf h)))
        as [out err|] eqn:E; [|discriminate].
      destruct (matchVersion_sound out v V) as (a & b & Eo & NE & F & _).
      split; [exact NE|]. split; [exact F|].
      exists ide, out, err, a, b. split; [|split; [exact E|exact Eo]].
      change ["code"; "cursor"; "windsurf"] with ides. rewrite P.
      apply in_or_app. right. now left.
    + rewrite length_map, length_app. cbn [length].
      assert (L : length ides = (length pre + S (length post))%nat).
      { rewrite P, length_app. reflexivity. }
      cbn in L. lia.
Qed.

(** * Further properties of the messages and of the labels *)

Section Messages.

Variable h : Host.



End Messages.



(** X18. The labels are joined by commas behind [--label], so [gh] cannot
    tell a label that holds a comma from two labels: a request with the
    one label [a,b] and a request with the two labels [a] and [b] hand
    the same argument vector to [gh]. *)
Theorem comma_in_label_splits (title body a b : string) (others : list string) :
  Sh.words (ghCommand title body (Some ((a ++ "," ++ b) :: others)))
  = Sh.words (ghCommand title body (Some (a :: b :: others)))
  /\ Sh.words (ghCommand title body (Some (a :: b :: others)))
     = Some ["gh"; "issue"; "create"; "--repo"; "cline/cline"; "--title";
             title; "--body"; body; "--label";
             a ++ "," ++ Str.join "," (b :: others)].
Proof.
  rewrite !words_ghCommand. unfold ghArgv. split; [|reflexivity].
  do 3 f_equal. destruct others as [|o others]; cbn [Str.join].
  - reflexivity.
  - now rewrite append_assoc.
Qed.
